(** * RSA key material of azure-keyvault-keys: JWK import and export, the
      byte/integer codec and algorithm dispatch

    Source: sdk/keyvault/azure-keyvault-keys/azure/keyvault/keys/crypto/_internal/rsa_key.py

    The Python code is embedded shallowly.  Python [int] is [Z], [bytes] is
    [list byte], text is [list ascii] (hex text) or [string] (names), an
    attribute that may be [None] is an [option], and a call that may raise
    returns a [result].  Methods of [RsaKey] run in a small state-and-error
    monad over the instance, so that what a call does to [self] is part of its
    meaning. *)

From Stdlib Require Import ZArith NArith List String Ascii Bool Lia.
From Stdlib Require Import Strings.Byte Znumtheory.
Import ListNotations.

(** ** Python values and exceptions *)

Definition bytes := list byte.
Definition str := list ascii.

(** A text literal. *)
Definition lit (s : string) : str := list_ascii_of_string s.

(** The exception classes the module can raise or let through. *)
Inductive exn : Type :=
| ValueError (msg : string)
| TypeError (msg : string)
| AttributeError (obj attr : string)
| NotImplementedError (msg : string)
| ZeroDivisionError
| BinasciiError (msg : string)
| KeyError (key : string)
| InvalidSignature
| UnsupportedAlgorithm (name : string)
| OtherError (name : string).

Inductive result (A : Type) : Type :=
| Ok (a : A)
| Raise (e : exn).
Arguments Ok {A} a.
Arguments Raise {A} e.

Definition rbind {A B} (r : result A) (k : A -> result B) : result B :=
  match r with
  | Ok a => k a
  | Raise e => Raise e
  end.

Declare Scope result_scope.
Delimit Scope result_scope with result.
Notation "x <- r ;; k" := (rbind r (fun x => k))
  (at level 61, r at next level, right associativity) : result_scope.

(** Python truthiness of an optional byte string: [None] and [b''] are falsy. *)
Definition truthy (o : option bytes) : bool :=
  match o with
  | Some (_ :: _) => true
  | _ => false
  end.

(** Passing an attribute on to a function that needs [bytes]. *)
Definition as_bytes (o : option bytes) : result bytes :=
  match o with
  | Some b => Ok b
  | None => Raise (TypeError "a bytes-like object is required, not 'NoneType'")
  end.

(** ** Python builtins used by the codec *)

Module Builtins.

Definition hexdigits : str := lit "0123456789abcdef".

Definition hex_digit (d : N) : ascii := nth (N.to_nat d) hexdigits "0"%char.

(** Value of a hexadecimal digit, either case, as [int(_, 16)] and
    [binascii.unhexlify] read it. *)
Definition hex_val (c : ascii) : option N :=
  let k := N_of_ascii c in
  if ((48 <=? k) && (k <=? 57))%N then Some (k - 48)%N
  else if ((97 <=? k) && (k <=? 102))%N then Some (k - 87)%N
  else if ((65 <=? k) && (k <=? 70))%N then Some (k - 55)%N
  else None.

(** Digits of [n], most significant first, pushed in front of [acc]. The
    fuel bounds the number of digits; [N.size n] bits always suffice. *)
Fixpoint hex_of_N (fuel : nat) (n : N) (acc : str) : str :=
  match fuel with
  | O => acc
  | S fuel' =>
      if (n =? 0)%N then acc
      else hex_of_N fuel' (n / 16)%N (hex_digit (n mod 16)%N :: acc)
  end.

Definition hex_magnitude (n : N) : str :=
  if (n =? 0)%N then lit "0" else hex_of_N (N.to_nat (N.size n)) n [].

(** [hex(i)] of Python 3: lower case, [0x] prefix, a minus sign in front
    for a negative number, no [L] suffix. *)
Definition hex (i : Z) : str :=
  match i with
  | Zneg p => lit "-0x" ++ hex_magnitude (Npos p)
  | _ => lit "0x" ++ hex_magnitude (Z.to_N i)
  end.

Fixpoint int16_digits (acc : N) (s : str) : option N :=
  match s with
  | [] => Some acc
  | c :: r =>
      match hex_val c with
      | Some d => int16_digits (16 * acc + d)%N r
      | None => None
      end
  end.

(** [int(s, 16)] on a text of hexadecimal digits, which is all that
    [codecs.encode(_, 'hex')] produces.  The empty text is an invalid
    literal.  Signs, prefixes, underscores and blanks, which Python also
    reads, are outside this model and rejected. *)
Definition int16 (s : str) : result Z :=
  match s with
  | [] => Raise (ValueError "invalid literal for int() with base 16")
  | _ =>
      match int16_digits 0 s with
      | Some n => Ok (Z.of_N n)
      | None => Raise (ValueError "invalid literal for int() with base 16")
      end
  end.

(** [codecs.encode(b, 'hex')]: two lower-case digits per byte. *)
Definition hexlify (b : bytes) : str :=
  flat_map (fun x => [hex_digit (Byte.to_N x / 16); hex_digit (Byte.to_N x mod 16)]) b.

Fixpoint unhexlify_pairs (s : str) : result bytes :=
  match s with
  | [] => Ok []
  | [_] => Raise (BinasciiError "Odd-length string")
  | c1 :: c2 :: r =>
      match hex_val c1, hex_val c2 with
      | Some h, Some l =>
          match Byte.of_N (16 * h + l) with
          | Some x => (rest <- unhexlify_pairs r ;; Ok (x :: rest))%result
          | None => Raise (BinasciiError "Non-hexadecimal digit found")
          end
      | _, _ => Raise (BinasciiError "Non-hexadecimal digit found")
      end
  end.

(** [codecs.decode(h, 'hex')]: the length is checked first, then the digits. *)
Definition unhexlify (s : str) : result bytes :=
  if Nat.odd (List.length s) then Raise (BinasciiError "Odd-length string")
  else unhexlify_pairs s.

Fixpoint str_eqb (a b : str) : bool :=
  match a, b with
  | [], [] => true
  | x :: a', y :: b' => Ascii.eqb x y && str_eqb a' b'
  | _, _ => false
  end.

Fixpoint lstrip (c : ascii) (s : str) : str :=
  match s with
  | x :: r => if Ascii.eqb x c then lstrip c r else s
  | [] => []
  end.

(** [s.strip(c)] for a single character [c]: both ends. *)
Definition strip (c : ascii) (s : str) : str :=
  rev (lstrip c (rev (lstrip c s))).

End Builtins.

(** ** The codec (rsa_key.py, module level) *)

Definition _bytes_to_int (b : bytes) : result Z :=
  Builtins.int16 (Builtins.hexlify b).

Definition _int_to_bytes (i : Z) : result bytes :=
  let h := Builtins.hex i in
  let h := if (1 <? List.length h)%nat && Builtins.str_eqb (firstn 2 h) (lit "0x")
           then skipn 2 h else h in
  (* need to strip L in python 2.x *)
  let h := Builtins.strip "L"%char h in
  let h := if Nat.odd (List.length h) then lit "0" ++ h else h in
  Builtins.unhexlify h.

(** Reference notions the codec is compared with. *)

(** Big-endian value of a byte string. *)
Definition be_value (b : bytes) : N :=
  fold_left (fun a x => (256 * a + Byte.to_N x)%N) b 0%N.

Fixpoint strip_zeros (b : bytes) : bytes :=
  match b with
  | x :: r => if Byte.eqb x x00 then strip_zeros r else b
  | [] => []
  end.

(** No leading zero byte. *)
Definition no_leading_zero (b : bytes) : bool :=
  match b with
  | x :: _ => negb (Byte.eqb x x00)
  | [] => true
  end.

(** The encoding the codec settles on: leading zero bytes dropped, and the
    single byte 00 for zero. *)
Definition canonical (b : bytes) : bytes :=
  match strip_zeros b with
  | [] => [x00]
  | s => s
  end.

(** ** The RSA primitive library

    [cryptography.hazmat.primitives.asymmetric.rsa] is a third-party
    collaborator.  Its number carriers and CRT helpers are plain Python and
    are written out here; loading numbers into a key goes through the backend,
    which is an interface. *)

(** Python's [a % b] on integers: floor remainder, [ZeroDivisionError] on a
    zero divisor. *)
Definition py_mod (a b : Z) : result Z :=
  if (b =? 0)%Z then Raise ZeroDivisionError else Ok (a mod b)%Z.

Module rsa.

Record RSAPublicNumbers : Type := { e : Z; n : Z }.

Record RSAPrivateNumbers : Type := {
  p : Z; q : Z; d : Z; dmp1 : Z; dmq1 : Z; iqmp : Z;
  public_numbers : RSAPublicNumbers
}.

(** Reading an integer attribute off a numbers object by name; a name the
    class does not have is an [AttributeError]. *)
Definition public_attr (o : RSAPublicNumbers) (name : string) : result Z :=
  if (name =? "n")%string then Ok (n o)
  else if (name =? "e")%string then Ok (e o)
  else Raise (AttributeError "RSAPublicNumbers" name).

Definition private_attr (o : option RSAPrivateNumbers) (name : string) : result Z :=
  match o with
  | None => Raise (AttributeError "NoneType" name)
  | Some o =>
      if (name =? "p")%string then Ok (p o)
      else if (name =? "q")%string then Ok (q o)
      else if (name =? "d")%string then Ok (d o)
      else if (name =? "dmp1")%string then Ok (dmp1 o)
      else if (name =? "dmq1")%string then Ok (dmq1 o)
      else if (name =? "iqmp")%string then Ok (iqmp o)
      else Raise (AttributeError "RSAPrivateNumbers" name)
  end.

(** The loop of [_modinv]: [while b > 0: q, r = divmod(a, b); xn = x1 - q * x2;
    a, b, x1, x2 = b, r, x2, xn].  It yields [x1]. *)
Fixpoint _modinv_loop (fuel : nat) (a b x1 x2 : Z) : Z :=
  match fuel with
  | O => x1
  | S fuel' =>
      if (0 <? b)%Z then
        let q := (a / b)%Z in
        let r := (a mod b)%Z in
        let xn := (x1 - q * x2)%Z in
        _modinv_loop fuel' b r x2 xn
      else x1
  end.

(** [_modinv(e, m)]: the loop runs at most [m] times, as [b] starts at [m]
    and strictly decreases. *)
Definition _modinv (e m : Z) : result Z :=
  py_mod (_modinv_loop (S (Z.to_nat m)) e m 1 0) m.

Definition rsa_crt_iqmp (p q : Z) : result Z := _modinv q p.

Definition rsa_crt_dmp1 (private_exponent p : Z) : result Z :=
  py_mod private_exponent (p - 1).

Definition rsa_crt_dmq1 (private_exponent q : Z) : result Z :=
  py_mod private_exponent (q - 1).

(** A key object holds the numbers it was loaded from: [RSAPrivateKey] and
    [RSAPublicKey] are the two classes [isinstance] tells apart. *)
Inductive key : Type :=
| RSAPrivateKey (numbers : RSAPrivateNumbers)
| RSAPublicKey (numbers : RSAPublicNumbers).

(** The backend decides whether numbers make a key; it raises when they do
    not (cryptography raises [ValueError]). *)
Class Backend : Type := {
  load_rsa_private_numbers : RSAPrivateNumbers -> result unit;
  load_rsa_public_numbers : RSAPublicNumbers -> result unit
}.

(** [RSAPrivateNumbers.private_key(backend)] *)
Definition private_key {B : Backend} (numbers : RSAPrivateNumbers) : result key :=
  (_ <- load_rsa_private_numbers numbers ;; Ok (RSAPrivateKey numbers))%result.

(** [RSAPublicNumbers.public_key(backend)] *)
Definition public_key {B : Backend} (numbers : RSAPublicNumbers) : result key :=
  (_ <- load_rsa_public_numbers numbers ;; Ok (RSAPublicKey numbers))%result.

(** [key.public_key()], a method of private keys only. *)
Definition key_public_key (k : key) : result key :=
  match k with
  | RSAPrivateKey numbers => Ok (RSAPublicKey (public_numbers numbers))
  | RSAPublicKey _ => Raise (AttributeError "RSAPublicKey" "public_key")
  end.

(** [key.public_numbers()], a method of public keys only. *)
Definition key_public_numbers (k : key) : result RSAPublicNumbers :=
  match k with
  | RSAPublicKey numbers => Ok numbers
  | RSAPrivateKey _ => Raise (AttributeError "RSAPrivateKey" "public_numbers")
  end.

(** [key.private_numbers()], a method of private keys only. *)
Definition key_private_numbers (k : key) : result RSAPrivateNumbers :=
  match k with
  | RSAPrivateKey numbers => Ok numbers
  | RSAPublicKey _ => Raise (AttributeError "RSAPublicKey" "private_numbers")
  end.

(** The component checks cryptography runs in Python before it hands numbers
    to OpenSSL; used below as a concrete backend for examples. *)
Definition check_public_components (o : RSAPublicNumbers) : bool :=
  ((3 <=? n o) && (3 <=? e o) && (e o <? n o) && Z.odd (e o))%Z.

Definition check_private_components (o : RSAPrivateNumbers) : bool :=
  let m := n (public_numbers o) in
  ((3 <=? m) && (p o <? m) && (q o <? m) && (dmp1 o <? m) && (dmq1 o <? m)
   && (iqmp o <? m) && (d o <? m)
   && (3 <=? e (public_numbers o)) && (e (public_numbers o) <? m)
   && Z.odd (e (public_numbers o)) && Z.odd (dmp1 o) && Z.odd (dmq1 o)
   && (p o * q o =? m))%Z.

Definition component_checks : Backend := {|
  load_rsa_private_numbers o :=
    if check_private_components o then Ok tt
    else Raise (ValueError "invalid private key components");
  load_rsa_public_numbers o :=
    if check_public_components o then Ok tt
    else Raise (ValueError "invalid public key components")
|}.

End rsa.

(** ** The JSON Web Key carrier (azure.keyvault.keys.models.JsonWebKey) *)

Module JsonWebKey.

Record t : Type := {
  kid : option string;
  kty : option string;
  key_ops : option (list string);
  n : option bytes;
  e : option bytes;
  d : option bytes;
  dq : option bytes;
  dp : option bytes;
  qi : option bytes;
  p : option bytes;
  q : option bytes
}.

Definition set_q (j : t) (v : option bytes) : t :=
  {| kid := kid j; kty := kty j; key_ops := key_ops j; n := n j; e := e j;
     d := d j; dq := dq j; dp := dp j; qi := qi j; p := p j; q := v |}.
Definition set_p (j : t) (v : option bytes) : t :=
  {| kid := kid j; kty := kty j; key_ops := key_ops j; n := n j; e := e j;
     d := d j; dq := dq j; dp := dp j; qi := qi j; p := v; q := q j |}.
Definition set_d (j : t) (v : option bytes) : t :=
  {| kid := kid j; kty := kty j; key_ops := key_ops j; n := n j; e := e j;
     d := v; dq := dq j; dp := dp j; qi := qi j; p := p j; q := q j |}.
Definition set_dq (j : t) (v : option bytes) : t :=
  {| kid := kid j; kty := kty j; key_ops := key_ops j; n := n j; e := e j;
     d := d j; dq := v; dp := dp j; qi := qi j; p := p j; q := q j |}.
Definition set_dp (j : t) (v : option bytes) : t :=
  {| kid := kid j; kty := kty j; key_ops := key_ops j; n := n j; e := e j;
     d := d j; dq := dq j; dp := v; qi := qi j; p := p j; q := q j |}.
Definition set_qi (j : t) (v : option bytes) : t :=
  {| kid := kid j; kty := kty j; key_ops := key_ops j; n := n j; e := e j;
     d := d j; dq := dq j; dp := dp j; qi := v; p := p j; q := q j |}.

(** [JsonWebKey(kid=..., kty=..., key_ops=..., n=..., e=...)]: the other
    attributes start as [None]. *)
Definition make (kid kty : option string) (key_ops : option (list string))
    (n e : option bytes) : t :=
  {| kid := kid; kty := kty; key_ops := key_ops; n := n; e := e;
     d := None; dq := None; dp := None; qi := None; p := None; q := None |}.

End JsonWebKey.

(** ** Named algorithms (crypto/_internal/algorithms) *)

Module algorithms.

Inductive Algorithm : Type :=
| Ps256 | Ps384 | Ps512 | Rsa1_5 | RsaOaep | RsaOaep256 | Rs256 | Rs384 | Rs512.

(** Modelled from the spec: the algorithms module is not among the sources;
    each class carries the name the algorithm name catalog gives it:
    RSA1_5, RSA-OAEP, RSA-OAEP-256, RS256, RS384, RS512, PS256, PS384,
    PS512. *)
Definition name (a : Algorithm) : string :=
  match a with
  | Ps256 => "PS256" | Ps384 => "PS384" | Ps512 => "PS512"
  | Rsa1_5 => "RSA1_5" | RsaOaep => "RSA-OAEP" | RsaOaep256 => "RSA-OAEP-256"
  | Rs256 => "RS256" | Rs384 => "RS384" | Rs512 => "RS512"
  end.

Definition catalog : list Algorithm :=
  [Ps256; Ps384; Ps512; Rsa1_5; RsaOaep; RsaOaep256; Rs256; Rs384; Rs512].

(** Lookup of an algorithm object by name in the static catalog. *)
Definition resolve (s : string) : option Algorithm :=
  find (fun a => (name a =? s)%string) catalog.

(** What an algorithm builds from a key.  The transforms themselves are the
    cryptographic primitives, an interface here. *)
Record CryptoTransform : Type := { transform : bytes -> result bytes }.

Record SignatureTransform : Type := {
  sign : bytes -> result bytes;
  (* returns None, raises InvalidSignature when verification fails *)
  verify : bytes -> bytes -> result unit
}.

Class Transforms : Type := {
  create_encryptor : Algorithm -> rsa.key -> result CryptoTransform;
  create_decryptor : Algorithm -> rsa.key -> result CryptoTransform;
  create_signature_transform : Algorithm -> rsa.key -> result SignatureTransform
}.

End algorithms.

(** ** class RsaKey(Key) *)

Module RsaKey.

(** An instance as [from_jwk] and [generate] hand it out, with [_rsa_impl]
    set to a key object. *)
Record t : Type := {
  _kid : option string;
  kty : option string;
  key_ops : option (list string);
  _rsa_impl : rsa.key
}.

(** A method: it reads and may change [self], and returns or raises. *)
Definition method (A : Type) : Type := t -> result A * t.

Definition ret {A} (a : A) : method A := fun self => (Ok a, self).
Definition raise {A} (e : exn) : method A := fun self => (Raise e, self).
Definition lift {A} (r : result A) : method A := fun self => (r, self).
Definition self : method t := fun s => (Ok s, s).
Definition bind {A B} (m : method A) (k : A -> method B) : method B :=
  fun s =>
    match m s with
    | (Ok a, s') => k a s'
    | (Raise e, s') => (Raise e, s')
    end.

(** [try: body / except exc: handler], for one exception class. *)
Definition try_except {A} (body : method A) (catches : exn -> bool)
    (handler : method A) : method A :=
  fun s =>
    match body s with
    | (Raise e, s') => if catches e then handler s' else (Raise e, s')
    | r => r
    end.

Declare Scope method_scope.
Delimit Scope method_scope with method.
Bind Scope method_scope with method.
Notation "x <- m ;; k" := (bind m (fun x => k))
  (at level 61, m at next level, right associativity) : method_scope.
Local Open Scope method_scope.

Definition PUBLIC_KEY_DEFAULT_OPS : list string := ["encrypt"; "wrapKey"; "verify"]%string.
Definition PRIVATE_KEY_DEFAULT_OPS : list string :=
  ["encrypt"; "decrypt"; "wrapKey"; "unwrapKey"; "verify"; "sign"]%string.

Definition _supported_encryption_algorithms : list string :=
  [algorithms.name algorithms.Rsa1_5; algorithms.name algorithms.RsaOaep;
   algorithms.name algorithms.RsaOaep256].
Definition _supported_key_wrap_algorithms : list string :=
  [algorithms.name algorithms.Rsa1_5; algorithms.name algorithms.RsaOaep;
   algorithms.name algorithms.RsaOaep256].
Definition _supported_signature_algorithms : list string :=
  [algorithms.name algorithms.Ps256; algorithms.name algorithms.Ps384;
   algorithms.name algorithms.Ps512; algorithms.name algorithms.Rs256;
   algorithms.name algorithms.Rs384; algorithms.name algorithms.Rs512].

Definition is_private_key : method bool :=
  s <- self ;;
  ret (match _rsa_impl s with rsa.RSAPrivateKey _ => true | rsa.RSAPublicKey _ => false end).

Definition private_key : method (option rsa.key) :=
  priv <- is_private_key ;;
  s <- self ;;
  ret (if priv then Some (_rsa_impl s) else None).

Definition public_key : method rsa.key :=
  priv <- is_private_key ;;
  s <- self ;;
  if priv then lift (rsa.key_public_key (_rsa_impl s)) else ret (_rsa_impl s).

Definition _public_key_material : method rsa.RSAPublicNumbers :=
  k <- public_key ;;
  lift (rsa.key_public_numbers k).

Definition _private_key_material : method (option rsa.RSAPrivateNumbers) :=
  k <- private_key ;;
  match k with
  | Some k => (m <- lift (rsa.key_private_numbers k) ;; ret (Some m))
  | None => ret None
  end.

(** Modelled from the spec: the base class Key (crypto/_internal/key) is not
    among the sources; [kid] is the identifier the instance was built
    with. *)
Definition kid : method (option string) :=
  s <- self ;; ret (_kid s).

Definition n : method bytes :=
  m <- _public_key_material ;;
  x <- lift (rsa.public_attr m "n") ;;
  lift (_int_to_bytes x).

Definition e : method bytes :=
  m <- _public_key_material ;;
  x <- lift (rsa.public_attr m "e") ;;
  lift (_int_to_bytes x).

Definition p : method (option bytes) :=
  priv <- is_private_key ;;
  if priv then
    m <- _public_key_material ;;
    x <- lift (rsa.public_attr m "p") ;;
    v <- lift (_int_to_bytes x) ;;
    ret (Some v)
  else ret None.

(** The private accessors [q], [b], [d], [dq], [dp], [qi] share one shape
    and differ in the attribute they read off the private numbers. *)
Definition private_field (attr : string) : method (option bytes) :=
  priv <- is_private_key ;;
  if priv then
    m <- _private_key_material ;;
    x <- lift (rsa.private_attr m attr) ;;
    v <- lift (_int_to_bytes x) ;;
    ret (Some v)
  else ret None.

Definition q : method (option bytes) := private_field "q".
Definition b : method (option bytes) := private_field "b".
Definition d : method (option bytes) := private_field "d".
Definition dq : method (option bytes) := private_field "dmq1".
Definition dp : method (option bytes) := private_field "dmp1".
Definition qi : method (option bytes) := private_field "iqmp".

(** The two [ValueError]s of [from_jwk] and the [NotImplementedError] of the
    private operations, under the names the error taxonomy gives them. *)
Definition InvalidKeyType : exn :=
  ValueError ("The specified jwk must have a key type of "
              ++ String "034" "RSA" ++ String "034" " or "
              ++ String "034" "RSA-HSM" ++ String "034" "").
Definition InvalidKeyMaterial : exn :=
  ValueError "Invalid RSA jwk, both n and e must be have values".
Definition UnsupportedOperation (what : string) : exn :=
  NotImplementedError ("The current RsaKey does not support " ++ what).

Definition kty_is (k : option string) (s : string) : bool :=
  match k with
  | Some k => (k =? s)%string
  | None => false
  end.

Definition bytes_to_int_field (o : option bytes) : result Z :=
  (v <- as_bytes o ;; _bytes_to_int v)%result.

Definition from_jwk {B : rsa.Backend} (jwk : JsonWebKey.t) : result t :=
  if negb (kty_is (JsonWebKey.kty jwk) "RSA") && negb (kty_is (JsonWebKey.kty jwk) "RSA-HSM")
  then Raise InvalidKeyType
  else if negb (truthy (JsonWebKey.n jwk)) || negb (truthy (JsonWebKey.e jwk))
  then Raise InvalidKeyMaterial
  else
    (pub_n <- bytes_to_int_field (JsonWebKey.n jwk) ;;
     pub_e <- bytes_to_int_field (JsonWebKey.e jwk) ;;
     let pub := {| rsa.n := pub_n; rsa.e := pub_e |} in
     key_impl <-
       (if truthy (JsonWebKey.p jwk) && truthy (JsonWebKey.q jwk) && truthy (JsonWebKey.d jwk)
        then
          p <- bytes_to_int_field (JsonWebKey.p jwk) ;;
          q <- bytes_to_int_field (JsonWebKey.q jwk) ;;
          d <- bytes_to_int_field (JsonWebKey.d jwk) ;;
          dmp1 <- (if truthy (JsonWebKey.dp jwk)
                   then bytes_to_int_field (JsonWebKey.dp jwk)
                   else rsa.rsa_crt_dmp1 d p) ;;
          dmq1 <- (if truthy (JsonWebKey.dq jwk)
                   then bytes_to_int_field (JsonWebKey.dq jwk)
                   else rsa.rsa_crt_dmq1 d q) ;;
          iqmp <- (if truthy (JsonWebKey.qi jwk)
                   then bytes_to_int_field (JsonWebKey.qi jwk)
                   else rsa.rsa_crt_iqmp p q) ;;
          let priv := {| rsa.p := p; rsa.q := q; rsa.d := d; rsa.dmp1 := dmp1;
                         rsa.dmq1 := dmq1; rsa.iqmp := iqmp;
                         rsa.public_numbers := pub |} in
          rsa.private_key priv
        else rsa.public_key pub) ;;
     Ok {| _kid := JsonWebKey.kid jwk; kty := JsonWebKey.kty jwk;
           key_ops := JsonWebKey.key_ops jwk; _rsa_impl := key_impl |})%result.

Definition to_jwk (include_private : bool) : method JsonWebKey.t :=
  kid' <- kid ;;
  s <- self ;;
  n' <- n ;;
  e' <- e ;;
  let jwk := JsonWebKey.make kid' (kty s)
               (if include_private then key_ops s else Some PUBLIC_KEY_DEFAULT_OPS)
               (Some n') (Some e') in
  if include_private then
    v <- q ;; let jwk := JsonWebKey.set_q jwk v in
    v <- p ;; let jwk := JsonWebKey.set_p jwk v in
    v <- d ;; let jwk := JsonWebKey.set_d jwk v in
    v <- dq ;; let jwk := JsonWebKey.set_dq jwk v in
    v <- dp ;; let jwk := JsonWebKey.set_dp jwk v in
    v <- qi ;; let jwk := JsonWebKey.set_qi jwk v in
    ret jwk
  else ret jwk.

Definition default_encryption_algorithm : method string :=
  ret (algorithms.name algorithms.RsaOaep).

Definition default_key_wrap_algorithm : method string :=
  ret (algorithms.name algorithms.RsaOaep).

Definition default_signature_algorithm : method string :=
  ret (algorithms.name algorithms.Rs256).

(** Modelled from the spec: [_get_algorithm] belongs to the base class Key,
    which is not among the sources.  Each operation has a role (encryption
    for encrypt and decrypt, key wrap for wrapKey and unwrapKey, signature
    for sign and verify); a name given by the caller must be in the
    catalog of that role, else the call fails with UnsupportedAlgorithm;
    without one the default of the role is taken. *)
Definition role_of (op : string) : method (method string * list string) :=
  if ((op =? "encrypt") || (op =? "decrypt"))%string
  then ret (default_encryption_algorithm, _supported_encryption_algorithms)
  else if ((op =? "wrapKey") || (op =? "unwrapKey"))%string
  then ret (default_key_wrap_algorithm, _supported_key_wrap_algorithms)
  else if ((op =? "sign") || (op =? "verify"))%string
  then ret (default_signature_algorithm, _supported_signature_algorithms)
  else raise (KeyError op).

Definition resolved (name : string) : method algorithms.Algorithm :=
  match algorithms.resolve name with
  | Some a => ret a
  | None => raise (UnsupportedAlgorithm name)
  end.

Definition _get_algorithm (op : string) (algorithm : option string)
    : method algorithms.Algorithm :=
  role <- role_of op ;;
  match algorithm with
  | Some name =>
      if existsb (String.eqb name) (snd role) then resolved name
      else raise (UnsupportedAlgorithm name)
  | None => name <- fst role ;; resolved name
  end.

Section Operations.
Context {T : algorithms.Transforms}.

Definition encrypt (plain_text : bytes) (algorithm : option string) : method bytes :=
  algorithm <- _get_algorithm "encrypt" algorithm ;;
  s <- self ;;
  encryptor <- lift (algorithms.create_encryptor algorithm (_rsa_impl s)) ;;
  lift (algorithms.transform encryptor plain_text).

Definition decrypt (cipher_text : bytes) (algorithm : option string) : method bytes :=
  priv <- is_private_key ;;
  if negb priv then raise (UnsupportedOperation "decrypt")
  else
    algorithm <- _get_algorithm "decrypt" algorithm ;;
    s <- self ;;
    decryptor <- lift (algorithms.create_decryptor algorithm (_rsa_impl s)) ;;
    lift (algorithms.transform decryptor cipher_text).

Definition sign (digest : bytes) (algorithm : option string) : method bytes :=
  priv <- is_private_key ;;
  if negb priv then raise (UnsupportedOperation "sign")
  else
    algorithm <- _get_algorithm "sign" algorithm ;;
    s <- self ;;
    signer <- lift (algorithms.create_signature_transform algorithm (_rsa_impl s)) ;;
    lift (algorithms.sign signer digest).

Definition is_InvalidSignature (e : exn) : bool :=
  match e with
  | InvalidSignature => true
  | _ => false
  end.

Definition verify (digest signature : bytes) (algorithm : option string) : method bool :=
  algorithm <- _get_algorithm "verify" algorithm ;;
  s <- self ;;
  signer <- lift (algorithms.create_signature_transform algorithm (_rsa_impl s)) ;;
  try_except
    (* cryptography's verify methods return None, and raise when verification fails *)
    (_ <- lift (algorithms.verify signer digest signature) ;;
     ret true)
    is_InvalidSignature
    (ret false).

Definition wrap_key (key : bytes) (algorithm : option string) : method bytes :=
  algorithm <- _get_algorithm "wrapKey" algorithm ;;
  s <- self ;;
  encryptor <- lift (algorithms.create_encryptor algorithm (_rsa_impl s)) ;;
  lift (algorithms.transform encryptor key).

Definition unwrap_key (encrypted_key : bytes) (algorithm : option string) : method bytes :=
  priv <- is_private_key ;;
  if negb priv then raise (UnsupportedOperation "unwrap")
  else
    algorithm <- _get_algorithm "unwrapKey" algorithm ;;
    s <- self ;;
    decryptor <- lift (algorithms.create_decryptor algorithm (_rsa_impl s)) ;;
    lift (algorithms.transform decryptor encrypted_key).

End Operations.

End RsaKey.

(** ** Notions used in the proofs about the codec *)

(** A lower-case hexadecimal digit. *)
Definition lower_hex (c : ascii) : Prop :=
  exists d, (d < 16)%N /\ c = Builtins.hex_digit d.

(** The text [_int_to_bytes] hands to [codecs.decode]: the digits of [n],
    with a 0 put in front when their number is odd. *)
Definition padded (n : N) : str :=
  let h := Builtins.hex_magnitude n in
  if Nat.odd (List.length h) then "0"%char :: h else h.

(** Byte strings the codec leaves as they are: a single byte, or several
    with a first byte other than 00. *)
Definition minimal (v : bytes) : bool :=
  match v with
  | [] => false
  | [x] => true
  | x :: _ => negb (Byte.eqb x x00)
  end.

(** ** Reference notions for the statements about JWK fields *)

(** The bytes of a JWK field, none when it is [None]. *)
Definition field_bytes (o : option bytes) : bytes :=
  match o with
  | Some v => v
  | None => []
  end.

(** The number a JWK field encodes, big-endian. *)
Definition field_int (o : option bytes) : Z := Z.of_N (be_value (field_bytes o)).

Definition accepted_kty (jwk : JsonWebKey.t) : bool :=
  RsaKey.kty_is (JsonWebKey.kty jwk) "RSA" || RsaKey.kty_is (JsonWebKey.kty jwk) "RSA-HSM".

Definition has_modulus_and_exponent (jwk : JsonWebKey.t) : bool :=
  truthy (JsonWebKey.n jwk) && truthy (JsonWebKey.e jwk).

Definition has_p_q_d (jwk : JsonWebKey.t) : bool :=
  truthy (JsonWebKey.p jwk) && truthy (JsonWebKey.q jwk) && truthy (JsonWebKey.d jwk).

Definition has_crt (jwk : JsonWebKey.t) : bool :=
  truthy (JsonWebKey.dp jwk) && truthy (JsonWebKey.dq jwk) && truthy (JsonWebKey.qi jwk).

(** The public numbers [from_jwk] reads out of a JWK. *)
Definition jwk_public_numbers (jwk : JsonWebKey.t) : rsa.RSAPublicNumbers :=
  {| rsa.n := field_int (JsonWebKey.n jwk); rsa.e := field_int (JsonWebKey.e jwk) |}.

(** The JWK with every private field removed. *)
Definition public_part (jwk : JsonWebKey.t) : JsonWebKey.t :=
  JsonWebKey.make (JsonWebKey.kid jwk) (JsonWebKey.kty jwk) (JsonWebKey.key_ops jwk)
    (JsonWebKey.n jwk) (JsonWebKey.e jwk).

Definition nonneg_public (o : rsa.RSAPublicNumbers) : bool :=
  ((0 <=? rsa.n o) && (0 <=? rsa.e o))%Z.

Definition nonneg_private (o : rsa.RSAPrivateNumbers) : bool :=
  ((0 <=? rsa.p o) && (0 <=? rsa.q o) && (0 <=? rsa.d o) && (0 <=? rsa.dmp1 o)
   && (0 <=? rsa.dmq1 o) && (0 <=? rsa.iqmp o))%Z
  && nonneg_public (rsa.public_numbers o).

(** Keys whose numbers are non-negative, as every key built from byte strings
    or generated is. *)
Definition nonneg_key (k : RsaKey.t) : bool :=
  match RsaKey._rsa_impl k with
  | rsa.RSAPrivateKey o => nonneg_private o
  | rsa.RSAPublicKey o => nonneg_public o
  end.

Definition public_only (k : RsaKey.t) : bool :=
  match RsaKey._rsa_impl k with
  | rsa.RSAPrivateKey _ => false
  | rsa.RSAPublicKey _ => true
  end.

(** ** A small key to run the code on: p = 61, q = 53, n = 3233, e = 17,
       d = 2753, dp = 53, dq = 49, qi = 38 *)

Module Sample.

Definition ops : option (list string) := Some ["sign"; "decrypt"]%string.

Definition jwk_full : JsonWebKey.t := {|
  JsonWebKey.kid := Some "k1"%string; JsonWebKey.kty := Some "RSA"%string;
  JsonWebKey.key_ops := ops;
  JsonWebKey.n := Some [x0c; xa1]; JsonWebKey.e := Some [x11];
  JsonWebKey.d := Some [x0a; xc1]; JsonWebKey.dq := Some [x31];
  JsonWebKey.dp := Some [x35]; JsonWebKey.qi := Some [x26];
  JsonWebKey.p := Some [x3d]; JsonWebKey.q := Some [x35] |}.

(** Only p, q and d: the CRT values are left to be derived. *)
Definition jwk_minimal : JsonWebKey.t :=
  JsonWebKey.set_qi (JsonWebKey.set_dp (JsonWebKey.set_dq jwk_full None) None) None.

(** The same key with q written on two bytes. *)
Definition jwk_padded : JsonWebKey.t := JsonWebKey.set_q jwk_full (Some [x00; x35]).

(** dp is 51 where d mod (p-1) is 53. *)
Definition jwk_other_dp : JsonWebKey.t := JsonWebKey.set_dp jwk_full (Some [x33]).

(** d is missing: the other private fields do not make a private key. *)
Definition jwk_no_d : JsonWebKey.t := JsonWebKey.set_d jwk_full None.

Definition jwk_ec : JsonWebKey.t :=
  JsonWebKey.make (Some "k2"%string) (Some "EC"%string) None (Some [x0c; xa1]) (Some [x11]).

Definition jwk_no_e : JsonWebKey.t :=
  JsonWebKey.make (Some "k3"%string) (Some "RSA-HSM"%string) None (Some [x0c; xa1]) None.

Definition public_numbers : rsa.RSAPublicNumbers := {| rsa.e := 17; rsa.n := 3233 |}.

Definition private_numbers : rsa.RSAPrivateNumbers := {|
  rsa.p := 61; rsa.q := 53; rsa.d := 2753; rsa.dmp1 := 53; rsa.dmq1 := 49;
  rsa.iqmp := 38; rsa.public_numbers := public_numbers |}.

Definition private_key : RsaKey.t := {|
  RsaKey._kid := Some "k1"%string; RsaKey.kty := Some "RSA"%string;
  RsaKey.key_ops := ops; RsaKey._rsa_impl := rsa.RSAPrivateKey private_numbers |}.

Definition public_key : RsaKey.t := {|
  RsaKey._kid := Some "k1"%string; RsaKey.kty := Some "RSA"%string;
  RsaKey.key_ops := ops; RsaKey._rsa_impl := rsa.RSAPublicKey public_numbers |}.

(** Primitives that check a signature by comparing it with the digest:
    equal verifies, a signature of another length is malformed, anything
    else is a mismatch. *)
Definition toy_signer : algorithms.SignatureTransform := {|
  algorithms.sign digest := Ok digest;
  algorithms.verify digest signature :=
    if negb (List.length digest =? List.length signature)%nat
    then Raise (ValueError "malformed signature")
    else if forallb (fun xy => Byte.eqb (fst xy) (snd xy)) (combine digest signature)
    then Ok tt
    else Raise InvalidSignature |}.

Definition toy_transforms : algorithms.Transforms := {|
  algorithms.create_encryptor _ _ := Ok {| algorithms.transform v := Ok v |};
  algorithms.create_decryptor _ _ := Ok {| algorithms.transform v := Ok v |};
  algorithms.create_signature_transform _ _ := Ok toy_signer |}.

End Sample.

(** ** Further reference notions *)

(** The public numbers a key answers [n] and [e] from: its own for a public
    key, those of [public_key()] for a private key. *)
Definition key_public_numbers (k : RsaKey.t) : rsa.RSAPublicNumbers :=
  match RsaKey._rsa_impl k with
  | rsa.RSAPrivateKey o => rsa.public_numbers o
  | rsa.RSAPublicKey o => o
  end.

(** The public-only key over the same public numbers, advertising the public
    operations. *)
Definition public_counterpart (k : RsaKey.t) : RsaKey.t :=
  {| RsaKey._kid := RsaKey._kid k; RsaKey.kty := RsaKey.kty k;
     RsaKey.key_ops := Some RsaKey.PUBLIC_KEY_DEFAULT_OPS;
     RsaKey._rsa_impl := rsa.RSAPublicKey (key_public_numbers k) |}.

(** An empty byte string replaced by [None]. *)
Definition nonempty (o : option bytes) : option bytes :=
  if truthy o then o else None.

Definition drop_empty_fields (jwk : JsonWebKey.t) : JsonWebKey.t :=
  {| JsonWebKey.kid := JsonWebKey.kid jwk; JsonWebKey.kty := JsonWebKey.kty jwk;
     JsonWebKey.key_ops := JsonWebKey.key_ops jwk;
     JsonWebKey.n := nonempty (JsonWebKey.n jwk); JsonWebKey.e := nonempty (JsonWebKey.e jwk);
     JsonWebKey.d := nonempty (JsonWebKey.d jwk); JsonWebKey.dq := nonempty (JsonWebKey.dq jwk);
     JsonWebKey.dp := nonempty (JsonWebKey.dp jwk); JsonWebKey.qi := nonempty (JsonWebKey.qi jwk);
     JsonWebKey.p := nonempty (JsonWebKey.p jwk); JsonWebKey.q := nonempty (JsonWebKey.q jwk) |}.

(** ** Tracing context (azure/core/tracing/common.py)

    [change_context] is a generator-based context manager.  It is embedded
    through its use, [with change_context(span): body]: the code before the
    [yield], the body, and the code after it, where a [finally] clause runs
    whether the body returns or raises.  The tracing implementation is the
    class [settings.tracing_implementation()] returns, or [None]; its two
    class methods read and write the current span of the execution
    context. *)

Module tracing.

Section Spans.
Variables Span Ctx : Type.

Record SpanImpl : Type := {
  get_current_span : Ctx -> option Span;
  set_current_span : option Span -> Ctx -> Ctx
}.

(** A block of code running in the execution context. *)
Definition block (A : Type) : Type := Ctx -> result A * Ctx.

Definition change_context {A} (tracing_implementation : option SpanImpl)
    (span : option Span) (body : block A) : block A :=
  fun ctx =>
    match tracing_implementation, span with
    | Some span_impl_type, Some _ =>
        let original_span := get_current_span span_impl_type ctx in
        let ctx := set_current_span span_impl_type span ctx in
        (* try: ... yield ... finally: *)
        let (outcome, ctx) := body ctx in
        (outcome, set_current_span span_impl_type original_span ctx)
    | _, _ => body ctx
    end.

End Spans.

Arguments get_current_span {Span Ctx}.
Arguments set_current_span {Span Ctx}.
Arguments change_context {Span Ctx A}.

End tracing.


(** A context made of one cell, for running the tracing code. *)
Definition cell_impl : tracing.SpanImpl nat (option nat) :=
  {| tracing.get_current_span ctx := ctx;
     tracing.set_current_span span _ := span |}.

(** * Properties *)

Import Builtins.

(** ** The codec on a few inputs *)

Example hex_255 : hex 255 = lit "0xff".
Proof. reflexivity. Qed.
Example hex_neg : hex (-26) = lit "-0x1a".
Proof. reflexivity. Qed.
Example int_to_bytes_0 : _int_to_bytes 0 = Ok [x00].
Proof. reflexivity. Qed.
Example int_to_bytes_256 : _int_to_bytes 256 = Ok [x01; x00].
Proof. reflexivity. Qed.
Example int_to_bytes_65537 : _int_to_bytes 65537 = Ok [x01; x00; x01].
Proof. reflexivity. Qed.
Example bytes_to_int_256 : _bytes_to_int [x00; x01; x00] = Ok 256%Z.
Proof. reflexivity. Qed.
Example int_to_bytes_negative :
  exists m, _int_to_bytes (-5) = Raise (BinasciiError m).
Proof. eexists; reflexivity. Qed.

(** ** The import on a few inputs *)

Example from_jwk_full :
  @RsaKey.from_jwk rsa.component_checks Sample.jwk_full = Ok Sample.private_key.
Proof. reflexivity. Qed.

(** A dp that is not d mod (p-1) goes into the key as it is. *)
Example from_jwk_other_dp :
  exists k o,
    @RsaKey.from_jwk rsa.component_checks Sample.jwk_other_dp = Ok k /\
    RsaKey._rsa_impl k = rsa.RSAPrivateKey o /\
    rsa.dmp1 o = 51%Z /\ (rsa.d o mod (rsa.p o - 1) = 53)%Z.
Proof. do 2 eexists. repeat split. Qed.

(** With p = 1 and no dp the derivation divides by zero. *)
Example from_jwk_one_as_p :
  @RsaKey.from_jwk rsa.component_checks
    (JsonWebKey.set_p Sample.jwk_minimal (Some [x01])) = Raise ZeroDivisionError.
Proof. reflexivity. Qed.

(** ** Hexadecimal digits *)

(** Case analysis on a number below 16. *)
Ltac nibble_cases d H :=
  destruct d as [|[[[[?|?|]|[?|?|]|]|[[?|?|]|[?|?|]|]|]|[[[?|?|]|[?|?|]|]|[[?|?|]|[?|?|]|]|]|]];
  try (exfalso; clear - H; lia).

Lemma hex_val_digit d : (d < 16)%N -> hex_val (hex_digit d) = Some d.
Proof. intros H. nibble_cases d H; reflexivity. Qed.

Lemma hex_digit_not_L d : (d < 16)%N -> Ascii.eqb (hex_digit d) "L" = false.
Proof. intros H. nibble_cases d H; reflexivity. Qed.

Lemma hex_digit_zero d : (d < 16)%N -> hex_digit d = "0"%char -> d = 0%N.
Proof. intros H. nibble_cases d H; try reflexivity; discriminate. Qed.

Lemma lower_hex_digit d : (d < 16)%N -> lower_hex (hex_digit d).
Proof. intros H; exists d; auto. Qed.

Lemma mod16_lt n : (n mod 16 < 16)%N.
Proof. apply N.mod_lt; discriminate. Qed.

Lemma div16_lt n : (n < 256)%N -> (n / 16 < 16)%N.
Proof. intros H. apply N.Div0.div_lt_upper_bound; lia. Qed.

Lemma hex_of_N_lower fuel : forall n acc,
  Forall lower_hex acc -> Forall lower_hex (hex_of_N fuel n acc).
Proof.
  induction fuel as [|f IH]; intros n acc Hacc; simpl; auto.
  destruct (n =? 0)%N; auto.
  apply IH. constructor; auto. apply lower_hex_digit, mod16_lt.
Qed.

Lemma hex_of_N_value fuel : forall n acc,
  (n < 2 ^ N.of_nat fuel)%N ->
  int16_digits 0 (hex_of_N fuel n acc) = int16_digits n acc.
Proof.
  induction fuel as [|f IH]; intros n acc Hn.
  - simpl in *. assert (n = 0%N) by lia. subst; reflexivity.
  - cbn [hex_of_N]. destruct (N.eqb_spec n 0) as [->|Hz]; [reflexivity|].
    rewrite IH.
    + cbn [int16_digits]. rewrite hex_val_digit by apply mod16_lt.
      f_equal. rewrite (N.div_mod n 16) at 3 by discriminate. lia.
    + rewrite Nat2N.inj_succ, N.pow_succ_r' in Hn.
      apply N.Div0.div_lt_upper_bound. lia.
Qed.

Lemma hex_of_N_head fuel : forall n acc,
  n <> 0%N -> (n < 2 ^ N.of_nat fuel)%N ->
  exists d r, hex_of_N fuel n acc = hex_digit d :: r /\ (0 < d < 16)%N.
Proof.
  induction fuel as [|f IH]; intros n acc Hz Hn.
  - simpl in Hn. lia.
  - cbn [hex_of_N]. destruct (N.eqb_spec n 0) as [|_]; [contradiction|].
    destruct (N.eq_dec (n / 16) 0) as [E|E].
    + rewrite E. destruct f; cbn [hex_of_N]; [|rewrite N.eqb_refl];
      exists (n mod 16)%N, acc; (split; [reflexivity|]);
      pose proof (N.div_mod n 16); pose proof (mod16_lt n); lia.
    + apply IH; auto.
      rewrite Nat2N.inj_succ, N.pow_succ_r' in Hn.
      apply N.Div0.div_lt_upper_bound. lia.
Qed.

Lemma size_fuel n : (n < 2 ^ N.of_nat (N.to_nat (N.size n)))%N.
Proof. rewrite N2Nat.id. apply N.size_gt. Qed.

Lemma lower_hex_not_L c : lower_hex c -> Ascii.eqb c "L" = false.
Proof. intros (d & Hd & ->). now apply hex_digit_not_L. Qed.

Lemma lower_hex_val c : lower_hex c -> exists d, (d < 16)%N /\ hex_val c = Some d /\ c = hex_digit d.
Proof. intros (d & Hd & ->). exists d. auto using hex_val_digit. Qed.

Lemma lstrip_lower s : Forall lower_hex s -> lstrip "L" s = s.
Proof.
  intros H. destruct H as [|c r Hc Hr]; [reflexivity|].
  simpl. now rewrite lower_hex_not_L.
Qed.

Lemma strip_lower s : Forall lower_hex s -> strip "L" s = s.
Proof.
  intros H. unfold strip.
  rewrite (lstrip_lower _ H).
  rewrite lstrip_lower by (apply Forall_rev; exact H).
  apply rev_involutive.
Qed.

(** Induction over a list two elements at a time. *)
Lemma pairs_ind (A : Type) (P : list A -> Prop) :
  P [] -> (forall a, P [a]) -> (forall a b r, P r -> P (a :: b :: r)) ->
  forall l, P l.
Proof.
  intros H0 H1 H2.
  fix go 1. intros [|a [|b r]]; [exact H0 | apply H1 | apply H2, go].
Qed.

Lemma byte_of_nibbles h l : (h < 16)%N -> (l < 16)%N ->
  exists x, Byte.of_N (16 * h + l) = Some x /\ Byte.to_N x = (16 * h + l)%N.
Proof.
  intros Hh Hl.
  destruct (Byte.of_N (16 * h + l)) as [x|] eqn:E.
  - exists x. split; [reflexivity|]. now apply Byte.to_of_N.
  - apply Byte.of_N_None_iff in E. lia.
Qed.

Lemma unhexlify_pairs_lower : forall s,
  Nat.odd (List.length s) = false -> Forall lower_hex s ->
  exists b, unhexlify_pairs s = Ok b /\ hexlify b = s.
Proof.
  induction s as [|a|c1 c2 r IH] using pairs_ind; intros Hlen Hs.
  - exists []. split; reflexivity.
  - discriminate.
  - inversion Hs as [|? ? Hc1 Hs']; subst. inversion Hs' as [|? ? Hc2 Hr]; subst.
    destruct (lower_hex_val _ Hc1) as (h & Hh & Vh & ->).
    destruct (lower_hex_val _ Hc2) as (l & Hl & Vl & ->).
    destruct (byte_of_nibbles _ _ Hh Hl) as (x & Ex & Tx).
    destruct IH as (b & Eb & Hb); [exact Hlen | exact Hr |].
    exists (x :: b). cbn [unhexlify_pairs]. rewrite Vh, Vl, Ex, Eb.
    split; [reflexivity|].
    cbn [hexlify flat_map app]. fold (hexlify b). rewrite Hb, Tx.
    replace ((16 * h + l) / 16)%N with h.
    2:{ apply N.div_unique with l; lia. }
    replace ((16 * h + l) mod 16)%N with l.
    2:{ apply N.mod_unique with h; lia. }
    reflexivity.
Qed.

Lemma to_N_lt x : (Byte.to_N x < 256)%N.
Proof. pose proof (Byte.to_N_bounded x). lia. Qed.

Lemma int16_hexlify : forall b acc,
  int16_digits acc (hexlify b) =
  Some (fold_left (fun a x => (256 * a + Byte.to_N x)%N) b acc).
Proof.
  induction b as [|x b IH]; intros acc; [reflexivity|].
  cbn [hexlify flat_map app]. fold (hexlify b).
  cbn [int16_digits].
  rewrite hex_val_digit by (apply div16_lt, to_N_lt).
  rewrite hex_val_digit by apply mod16_lt.
  rewrite IH. cbn [fold_left]. do 2 f_equal.
  rewrite (N.div_mod (Byte.to_N x) 16) at 3 by discriminate. lia.
Qed.

Lemma bytes_to_int_value b : b <> [] -> _bytes_to_int b = Ok (Z.of_N (be_value b)).
Proof.
  intros Hb. unfold _bytes_to_int, int16.
  rewrite int16_hexlify. fold (be_value b).
  destruct b as [|x b]; [contradiction|reflexivity].
Qed.

Lemma bytes_to_int_empty : exists m, _bytes_to_int [] = Raise (ValueError m).
Proof. eexists; reflexivity. Qed.

Lemma hex_nonneg i : (0 <= i)%Z ->
  hex i = "0"%char :: "x"%char :: hex_magnitude (Z.to_N i).
Proof. destruct i; intros H; [reflexivity | reflexivity | lia]. Qed.

Lemma hex_magnitude_lower n : Forall lower_hex (hex_magnitude n).
Proof.
  unfold hex_magnitude. destruct (n =? 0)%N.
  - repeat constructor. apply (lower_hex_digit 0). reflexivity.
  - apply hex_of_N_lower. constructor.
Qed.

Lemma hex_magnitude_value n : int16_digits 0 (hex_magnitude n) = Some n.
Proof.
  unfold hex_magnitude. destruct (N.eqb_spec n 0) as [->|Hz]; [reflexivity|].
  rewrite hex_of_N_value by apply size_fuel. reflexivity.
Qed.

Lemma hex_magnitude_head n : n <> 0%N ->
  exists d r, hex_magnitude n = hex_digit d :: r /\ (0 < d < 16)%N.
Proof.
  intros Hz. unfold hex_magnitude.
  destruct (N.eqb_spec n 0) as [|_]; [contradiction|].
  apply hex_of_N_head; [exact Hz | apply size_fuel].
Qed.

Lemma padded_even n : Nat.odd (List.length (padded n)) = false.
Proof.
  unfold padded. destruct (Nat.odd (List.length (hex_magnitude n))) eqn:E; [|exact E].
  cbn [List.length]. rewrite Nat.odd_succ, <- Nat.negb_odd, E. reflexivity.
Qed.

Lemma padded_lower n : Forall lower_hex (padded n).
Proof.
  unfold padded. destruct (Nat.odd _); [constructor|]; try apply hex_magnitude_lower.
  apply (lower_hex_digit 0). reflexivity.
Qed.

Lemma padded_value n : int16_digits 0 (padded n) = Some n.
Proof.
  unfold padded. destruct (Nat.odd _); [|apply hex_magnitude_value].
  cbn [int16_digits]. change (hex_val "0") with (Some 0%N). cbn iota.
  apply hex_magnitude_value.
Qed.

Lemma int_to_bytes_padded i : (0 <= i)%Z ->
  _int_to_bytes i = unhexlify_pairs (padded (Z.to_N i)).
Proof.
  intros Hi. unfold _int_to_bytes. rewrite hex_nonneg by exact Hi.
  cbn [List.length Nat.ltb Nat.leb firstn skipn andb lit list_ascii_of_string str_eqb Ascii.eqb Bool.eqb].
  rewrite strip_lower by apply hex_magnitude_lower.
  change (unhexlify (padded (Z.to_N i)) = unhexlify_pairs (padded (Z.to_N i))).
  unfold unhexlify. now rewrite padded_even.
Qed.

Lemma int_to_bytes_hexlify i : (0 <= i)%Z ->
  exists b, _int_to_bytes i = Ok b /\ hexlify b = padded (Z.to_N i).
Proof.
  intros Hi. rewrite int_to_bytes_padded by exact Hi.
  apply unhexlify_pairs_lower; [apply padded_even | apply padded_lower].
Qed.

Local Abbreviation be_step := (fun a x => (256 * a + Byte.to_N x)%N).

Lemma fold_be_acc : forall b acc,
  fold_left be_step b acc =
  (acc * 256 ^ N.of_nat (List.length b) + fold_left be_step b 0)%N.
Proof.
  induction b as [|x b IH]; intros acc.
  - simpl. lia.
  - cbn [fold_left List.length]. rewrite IH, (IH (256 * 0 + Byte.to_N x)%N).
    rewrite Nat2N.inj_succ, N.pow_succ_r'. lia.
Qed.

Lemma be_value_cons x b :
  be_value (x :: b) = (Byte.to_N x * 256 ^ N.of_nat (List.length b) + be_value b)%N.
Proof.
  unfold be_value. cbn [fold_left]. rewrite fold_be_acc. f_equal.
Qed.

Lemma be_value_lt b : (be_value b < 256 ^ N.of_nat (List.length b))%N.
Proof.
  induction b as [|x b IH]; [reflexivity|].
  rewrite be_value_cons. cbn [List.length].
  rewrite Nat2N.inj_succ, N.pow_succ_r'.
  pose proof (to_N_lt x). nia.
Qed.

Lemma to_N_inj x y : Byte.to_N x = Byte.to_N y -> x = y.
Proof.
  intros H. pose proof (Byte.of_to_N x) as Hx. rewrite H, Byte.of_to_N in Hx.
  now injection Hx.
Qed.

Lemma to_N_zero x : Byte.to_N x = 0%N -> x = x00.
Proof. intros H. apply to_N_inj. exact H. Qed.

Lemma eqb_x00 x : Byte.eqb x x00 = false -> (0 < Byte.to_N x)%N.
Proof.
  intros H. destruct (N.eq_dec (Byte.to_N x) 0) as [E|E]; [|lia].
  apply to_N_zero in E. subst. discriminate.
Qed.

Lemma be_value_lower x b : Byte.eqb x x00 = false ->
  (256 ^ N.of_nat (List.length b) <= be_value (x :: b))%N.
Proof.
  intros H. apply eqb_x00 in H. rewrite be_value_cons. nia.
Qed.

Lemma be_value_strip b : be_value (strip_zeros b) = be_value b.
Proof.
  induction b as [|x b IH]; [reflexivity|].
  cbn [strip_zeros]. destruct (Byte.eqb x x00) eqn:E; [|reflexivity].
  apply Byte.byte_dec_bl in E. subst. rewrite IH, be_value_cons. reflexivity.
Qed.

Lemma strip_zeros_head b : no_leading_zero (strip_zeros b) = true.
Proof.
  induction b as [|x b IH]; [reflexivity|].
  cbn [strip_zeros]. destruct (Byte.eqb x x00) eqn:E; [exact IH|].
  cbn. now rewrite E.
Qed.

Lemma be_value_inj : forall a b,
  List.length a = List.length b -> be_value a = be_value b -> a = b.
Proof.
  induction a as [|x a IH]; intros [|y b] Hlen Hv; try discriminate; [reflexivity|].
  injection Hlen as Hlen. rewrite !be_value_cons, <- Hlen in Hv.
  pose proof (be_value_lt a) as Ha. pose proof (be_value_lt b) as Hb.
  rewrite <- Hlen in Hb.
  assert (Byte.to_N x = Byte.to_N y /\ be_value a = be_value b) as [Hx Hr].
  { apply (N.div_mod_unique (256 ^ N.of_nat (List.length a))); [exact Ha | exact Hb | lia]. }
  f_equal; [now apply to_N_inj | now apply IH].
Qed.

Lemma be_value_short : forall a y b,
  (List.length a < List.length (y :: b))%nat -> Byte.eqb y x00 = false ->
  (be_value a < be_value (y :: b))%N.
Proof.
  intros a y b Hlen Hy.
  eapply N.lt_le_trans; [apply be_value_lt|].
  eapply N.le_trans; [|apply be_value_lower; exact Hy].
  apply N.pow_le_mono_r; [discriminate|]. cbn [List.length] in Hlen. lia.
Qed.

(** Two byte strings without leading zero byte that denote the same number
    are the same. *)
Lemma be_value_unique a b :
  no_leading_zero a = true -> no_leading_zero b = true ->
  be_value a = be_value b -> a = b.
Proof.
  intros Ha Hb Hv. apply be_value_inj; [|exact Hv].
  destruct (Nat.lt_trichotomy (List.length a) (List.length b)) as [L|[L|L]]; [|exact L|].
  - destruct b as [|y b]; [inversion L|]. cbn in Hb. apply negb_true_iff in Hb.
    pose proof (be_value_short a y b L Hb). lia.
  - destruct a as [|x a]; [inversion L|]. cbn in Ha. apply negb_true_iff in Ha.
    pose proof (be_value_short b x a L Ha). lia.
Qed.

Lemma padded_head n : n <> 0%N ->
  exists d r, (0 < d < 16)%N /\
    (padded n = hex_digit d :: r \/ padded n = "0"%char :: hex_digit d :: r).
Proof.
  intros Hz. destruct (hex_magnitude_head n Hz) as (d & r & E & Hd).
  exists d, r. split; [exact Hd|]. unfold padded. rewrite E.
  destruct (Nat.odd _); auto.
Qed.

Lemma int_to_bytes_spec i : (0 <= i)%Z ->
  exists b, _int_to_bytes i = Ok b /\
    hexlify b = padded (Z.to_N i) /\
    be_value b = Z.to_N i /\
    (i = 0%Z -> b = [x00]) /\
    ((0 < i)%Z -> exists x r, b = x :: r /\ x <> x00).
Proof.
  intros Hi. destruct (int_to_bytes_hexlify i Hi) as (b & Eb & Hb).
  exists b. split; [exact Eb|]. split; [exact Hb|].
  assert (Hv : be_value b = Z.to_N i).
  { pose proof (int16_hexlify b 0) as H. rewrite Hb, padded_value in H.
    injection H as H. symmetry. exact H. }
  split; [exact Hv|]. split.
  - intros ->. cbv in Eb. now injection Eb.
  - intros Hpos.
    destruct (padded_head (Z.to_N i)) as (d & r & Hd & Hp); [lia|].
    destruct b as [|x b].
    + exfalso. rewrite <- Hb in Hp. destruct Hp; discriminate.
    + exists x, b. split; [reflexivity|]. intros ->.
      rewrite <- Hb in Hp.
      change (hexlify (x00 :: b)) with ("0"%char :: "0"%char :: hexlify b) in Hp.
      assert (Hz : hex_digit d = "0"%char)
        by (destruct Hp as [Hp|Hp]; inversion Hp; reflexivity).
      apply hex_digit_zero in Hz; lia.
Qed.

Lemma strip_zeros_length b : (List.length (strip_zeros b) <= List.length b)%nat.
Proof.
  induction b as [|x b IH]; [reflexivity|].
  cbn [strip_zeros]. destruct (Byte.eqb x x00); cbn [List.length]; lia.
Qed.

Lemma head_no_leading_zero x r : x <> x00 -> no_leading_zero (x :: r) = true.
Proof.
  intros H. cbn. destruct (Byte.eqb x x00) eqn:E; [|reflexivity].
  apply Byte.byte_dec_bl in E. contradiction.
Qed.

Lemma padded_nonempty n : padded n <> [].
Proof.
  destruct (N.eq_dec n 0) as [->|Hz]; [discriminate|].
  destruct (padded_head n Hz) as (d & r & _ & [H|H]); rewrite H; discriminate.
Qed.

Lemma int_to_bytes_roundtrip i : (0 <= i)%Z ->
  exists b, _int_to_bytes i = Ok b /\ _bytes_to_int b = Ok i.
Proof.
  intros Hi. destruct (int_to_bytes_spec i Hi) as (b & Eb & Hb & Hv & _).
  exists b. split; [exact Eb|].
  unfold _bytes_to_int, int16. rewrite Hb, padded_value, Z2N.id by exact Hi.
  pose proof (padded_nonempty (Z.to_N i)) as Hne.
  destruct (padded (Z.to_N i)); [contradiction|reflexivity].
Qed.

Lemma int_to_bytes_nonzero i : (0 < i)%Z ->
  exists b, _int_to_bytes i = Ok b /\ be_value b = Z.to_N i /\
            no_leading_zero b = true /\ b <> [].
Proof.
  intros Hi. destruct (int_to_bytes_spec i) as (b & Eb & _ & Hv & _ & Hh); [lia|].
  destruct (Hh Hi) as (x & r & -> & Hx).
  exists (x :: r). repeat split; auto using head_no_leading_zero. discriminate.
Qed.

Lemma int_to_bytes_canonical b : b <> [] ->
  _int_to_bytes (Z.of_N (be_value b)) = Ok (canonical b).
Proof.
  intros Hb. unfold canonical.
  pose proof (be_value_strip b) as Hs. pose proof (strip_zeros_head b) as Hn.
  destruct (strip_zeros b) as [|x r] eqn:E.
  - cbn in Hs. rewrite <- Hs. reflexivity.
  - assert (Hpos : (0 < be_value b)%N).
    { rewrite <- Hs. cbn in Hn. apply negb_true_iff in Hn.
      pose proof (be_value_lower x r Hn).
      pose proof (N.pow_nonzero 256 (N.of_nat (List.length r))). lia. }
    destruct (int_to_bytes_nonzero (Z.of_N (be_value b))) as (c & Ec & Hv & Hc & _); [lia|].
    rewrite Ec. f_equal. apply be_value_unique; auto.
    rewrite Hv, N2Z.id. symmetry. exact Hs.
Qed.

Lemma int_to_bytes_minimal i b b' : (0 <= i)%Z -> _int_to_bytes i = Ok b ->
  b' <> [] -> be_value b' = Z.to_N i -> (List.length b <= List.length b')%nat.
Proof.
  intros Hi Eb Hb' Hv.
  assert (E : _int_to_bytes (Z.of_N (be_value b')) = Ok (canonical b'))
    by now apply int_to_bytes_canonical.
  rewrite Hv, Z2N.id, Eb in E by exact Hi. injection E as ->.
  unfold canonical. pose proof (strip_zeros_length b').
  destruct (strip_zeros b') eqn:E; [|exact H].
  destruct b'; [contradiction|]. cbn [List.length]. lia.
Qed.

(** ** The modular inverse of the RSA library *)

Section Modinv.
Local Open Scope Z_scope.

Lemma modinv_loop_spec e m : forall fuel a b x1 x2,
  0 <= a -> 0 <= b -> (Z.to_nat b < fuel)%nat ->
  (m | x1 * e - a) -> (m | x2 * e - b) ->
  (m | rsa._modinv_loop fuel a b x1 x2 * e - Z.gcd a b).
Proof.
  induction fuel as [|f IH]; intros a b x1 x2 Ha Hb Hf H1 H2; [lia|].
  cbn [rsa._modinv_loop].
  destruct (Z.ltb_spec 0 b) as [Hpos|Hz].
  - assert (Hr : 0 <= a mod b < b) by (apply Z.mod_pos_bound; lia).
    replace (Z.gcd a b) with (Z.gcd b (a mod b)).
    2:{ rewrite (Z.gcd_comm b), Z.gcd_mod by lia. apply Z.gcd_comm. }
    apply IH; try lia; [exact H2|].
    destruct H1 as [k1 E1]. destruct H2 as [k2 E2].
    exists (k1 - (a / b) * k2).
    assert (D : a mod b = a - b * (a / b))
      by (pose proof (Z.div_mod a b ltac:(lia)); lia).
    replace ((x1 - a / b * x2) * e - a mod b)
      with ((x1 * e - a) - (a / b) * (x2 * e - b)) by (rewrite D; ring).
    rewrite E1, E2. ring.
  - assert (b = 0) by lia. subst b. rewrite Z.gcd_0_r, Z.abs_eq by exact Ha.
    exact H1.
Qed.

Lemma modinv_correct e m : 1 < m -> 0 <= e -> Z.gcd e m = 1 ->
  exists i, rsa._modinv e m = Ok i /\ (i * e) mod m = 1 /\ 0 <= i < m.
Proof.
  intros Hm He Hg. unfold rsa._modinv, py_mod.
  destruct (Z.eqb_spec m 0) as [|_]; [lia|].
  set (x := rsa._modinv_loop _ _ _ _ _).
  exists (x mod m). split; [reflexivity|].
  split; [|apply Z.mod_pos_bound; lia].
  assert (H : (m | x * e - Z.gcd e m)).
  { apply modinv_loop_spec; try lia.
    - exists 0; ring.
    - exists (-1); ring. }
  rewrite Hg in H. destruct H as [k Hk].
  rewrite Z.mul_mod_idemp_l by lia.
  replace (x * e) with (1 + k * m) by lia.
  rewrite Z.mod_add by lia. apply Z.mod_small. lia.
Qed.

End Modinv.

(** ** Fields and accessors *)

Lemma as_bytes_truthy o : truthy o = true -> as_bytes o = Ok (field_bytes o) /\ field_bytes o <> [].
Proof. destruct o as [[|x v]|]; try discriminate. intros _. split; [reflexivity|discriminate]. Qed.

Lemma bytes_to_int_field_truthy o : truthy o = true ->
  RsaKey.bytes_to_int_field o = Ok (field_int o).
Proof.
  intros H. destruct (as_bytes_truthy o H) as [E Hne].
  unfold RsaKey.bytes_to_int_field. rewrite E. cbn [rbind].
  now apply bytes_to_int_value.
Qed.

Lemma field_int_nonneg o : (0 <= field_int o)%Z.
Proof. unfold field_int. lia. Qed.

Lemma field_int_encoding o : truthy o = true ->
  _int_to_bytes (field_int o) = Ok (canonical (field_bytes o)).
Proof.
  intros H. apply int_to_bytes_canonical. now apply as_bytes_truthy.
Qed.

Lemma int_to_bytes_total i : (0 <= i)%Z -> exists v, _int_to_bytes i = Ok v.
Proof.
  intros H. destruct (int_to_bytes_spec i H) as (v & E & _). now exists v.
Qed.

Lemma canonical_minimal v : minimal v = true -> canonical v = v.
Proof.
  destruct v as [|x [|y r]]; try discriminate; unfold canonical; cbn.
  - destruct (Byte.eqb x x00) eqn:E; [|reflexivity].
    apply Byte.byte_dec_bl in E. now subst.
  - destruct (Byte.eqb x x00); [discriminate|reflexivity].
Qed.

Lemma private_field_public_only k attr : public_only k = true ->
  RsaKey.private_field attr k = (Ok None, k).
Proof.
  destruct k as [kid kty ops [o|o]]; [discriminate|]. intros _. reflexivity.
Qed.

Lemma p_public_only k : public_only k = true -> RsaKey.p k = (Ok None, k).
Proof.
  destruct k as [kid kty ops [o|o]]; [discriminate|]. intros _. reflexivity.
Qed.

Lemma private_field_private kid kty ops o attr x :
  rsa.private_attr (Some o) attr = Ok x ->
  let k := {| RsaKey._kid := kid; RsaKey.kty := kty; RsaKey.key_ops := ops;
              RsaKey._rsa_impl := rsa.RSAPrivateKey o |} in
  RsaKey.private_field attr k =
  (match _int_to_bytes x with Ok v => Ok (Some v) | Raise e => Raise e end, k).
Proof.
  intros H k. subst k.
  cbv beta iota zeta delta
    [RsaKey.bind RsaKey.ret RsaKey.lift RsaKey.self RsaKey.is_private_key
     RsaKey.private_key RsaKey._private_key_material RsaKey.private_field
     RsaKey._rsa_impl rsa.key_private_numbers].
  rewrite H. destruct (_int_to_bytes x); reflexivity.
Qed.

(** ** Running methods *)

Lemma bind_ok {A C} (m : RsaKey.method A) (k : A -> RsaKey.method C) s a s' :
  m s = (Ok a, s') -> RsaKey.bind m k s = k a s'.
Proof. intros H. unfold RsaKey.bind. now rewrite H. Qed.

Lemma bind_lift {A C} (r : result A) (k : A -> RsaKey.method C) s :
  RsaKey.bind (RsaKey.lift r) k s =
  match r with Ok a => k a s | Raise e => (Raise e, s) end.
Proof. unfold RsaKey.bind, RsaKey.lift. destruct r; reflexivity. Qed.

Lemma bind_self {C} (k : RsaKey.t -> RsaKey.method C) s :
  RsaKey.bind RsaKey.self k s = k s s.
Proof. reflexivity. Qed.

Lemma bind_kid {C} (k : option string -> RsaKey.method C) s :
  RsaKey.bind RsaKey.kid k s = k (RsaKey._kid s) s.
Proof. reflexivity. Qed.

Lemma public_key_material_run k :
  exists o, RsaKey._public_key_material k = (Ok o, k) /\
            (nonneg_key k = true -> nonneg_public o = true).
Proof.
  destruct k as [kid kty ops [o|o]].
  - exists (rsa.public_numbers o). split; [reflexivity|].
    unfold nonneg_key, nonneg_private. cbn. intros H.
    now apply andb_true_iff in H as [_ H].
  - exists o. split; [reflexivity|]. auto.
Qed.

(** The public accessors return on every key with non-negative numbers. *)
Lemma n_e_run k : nonneg_key k = true ->
  exists vn ve, RsaKey.n k = (Ok vn, k) /\ RsaKey.e k = (Ok ve, k).
Proof.
  intros H. destruct (public_key_material_run k) as (o & Eo & Ho).
  specialize (Ho H). unfold nonneg_public in Ho.
  apply andb_true_iff in Ho as [Hn He]. apply Z.leb_le in Hn, He.
  destruct (int_to_bytes_total _ Hn) as (vn & En).
  destruct (int_to_bytes_total _ He) as (ve & Ee).
  exists vn, ve. unfold RsaKey.n, RsaKey.e.
  rewrite !(bind_ok _ _ _ _ _ Eo).
  change (rsa.public_attr o "n") with (Ok (rsa.n o)).
  change (rsa.public_attr o "e") with (Ok (rsa.e o)).
  rewrite !bind_lift.
  unfold RsaKey.lift. now rewrite En, Ee.
Qed.

(** What holds of the private accessors: all six are absent on a public-only
    key, and five of them encode their number on a private key. *)
Lemma private_accessors_public_only k : public_only k = true ->
  RsaKey.p k = (Ok None, k) /\ RsaKey.q k = (Ok None, k) /\ RsaKey.d k = (Ok None, k) /\
  RsaKey.dp k = (Ok None, k) /\ RsaKey.dq k = (Ok None, k) /\ RsaKey.qi k = (Ok None, k).
Proof.
  intros H. repeat split; try (now apply private_field_public_only). now apply p_public_only.
Qed.

Lemma private_accessors_private kid kty ops o :
  let k := {| RsaKey._kid := kid; RsaKey.kty := kty; RsaKey.key_ops := ops;
              RsaKey._rsa_impl := rsa.RSAPrivateKey o |} in
  nonneg_private o = true ->
  exists vq vd vdp vdq vqi,
    RsaKey.q k = (Ok (Some vq), k) /\ _bytes_to_int vq = Ok (rsa.q o) /\
    RsaKey.d k = (Ok (Some vd), k) /\ _bytes_to_int vd = Ok (rsa.d o) /\
    RsaKey.dp k = (Ok (Some vdp), k) /\ _bytes_to_int vdp = Ok (rsa.dmp1 o) /\
    RsaKey.dq k = (Ok (Some vdq), k) /\ _bytes_to_int vdq = Ok (rsa.dmq1 o) /\
    RsaKey.qi k = (Ok (Some vqi), k) /\ _bytes_to_int vqi = Ok (rsa.iqmp o).
Proof.
  intros k H. unfold nonneg_private in H.
  repeat (apply andb_true_iff in H as [H ?]).
  repeat match goal with X : (_ <=? _)%Z = true |- _ => apply Z.leb_le in X end.
  destruct (int_to_bytes_roundtrip (rsa.q o)) as (vq & Eq & Rq); [assumption|].
  destruct (int_to_bytes_roundtrip (rsa.d o)) as (vd & Ed & Rd); [assumption|].
  destruct (int_to_bytes_roundtrip (rsa.dmp1 o)) as (vdp & Edp & Rdp); [assumption|].
  destruct (int_to_bytes_roundtrip (rsa.dmq1 o)) as (vdq & Edq & Rdq); [assumption|].
  destruct (int_to_bytes_roundtrip (rsa.iqmp o)) as (vqi & Eqi & Rqi); [assumption|].
  exists vq, vd, vdp, vdq, vqi. subst k.
  unfold RsaKey.q, RsaKey.d, RsaKey.dp, RsaKey.dq, RsaKey.qi.
  rewrite (private_field_private kid kty ops o "q" (rsa.q o) eq_refl).
  rewrite (private_field_private kid kty ops o "d" (rsa.d o) eq_refl).
  rewrite (private_field_private kid kty ops o "dmp1" (rsa.dmp1 o) eq_refl).
  rewrite (private_field_private kid kty ops o "dmq1" (rsa.dmq1 o) eq_refl).
  rewrite (private_field_private kid kty ops o "iqmp" (rsa.iqmp o) eq_refl).
  rewrite Eq, Ed, Edp, Edq, Eqi. repeat split; assumption.
Qed.

(** The public export emits kid, kty, n and e and the fixed public
    operations, whatever the key and its own key_ops. *)
Lemma to_jwk_public (k : RsaKey.t) : nonneg_key k = true ->
  exists vn ve,
    RsaKey.n k = (Ok vn, k) /\ RsaKey.e k = (Ok ve, k) /\
    RsaKey.to_jwk false k =
    (Ok (JsonWebKey.make (RsaKey._kid k) (RsaKey.kty k)
           (Some RsaKey.PUBLIC_KEY_DEFAULT_OPS) (Some vn) (Some ve)), k).
Proof.
  intros H. destruct (n_e_run k H) as (vn & ve & En & Ee).
  exists vn, ve. split; [exact En|]. split; [exact Ee|].
  unfold RsaKey.to_jwk.
  rewrite bind_kid, bind_self.
  rewrite (bind_ok _ _ _ _ _ En), (bind_ok _ _ _ _ _ Ee).
  reflexivity.
Qed.

(** ** The import, case by case *)

Lemma py_mod_ok a b r : py_mod a b = Ok r <-> (b <> 0 /\ r = a mod b)%Z.
Proof.
  unfold py_mod. destruct (Z.eqb_spec b 0) as [->|H]; split.
  - discriminate.
  - intros [? _]. contradiction.
  - intros E. injection E as <-. auto.
  - intros [_ ->]. reflexivity.
Qed.

Lemma rbind_ok {A C} (r : result A) (k : A -> result C) c :
  rbind r k = Ok c <-> exists a, r = Ok a /\ k a = Ok c.
Proof.
  destruct r as [a|e]; cbn; split.
  - intros H. now exists a.
  - intros (a' & E & H). now injection E as <-.
  - discriminate.
  - intros (a' & E & _). discriminate.
Qed.

Lemma truthy_some o : truthy o = true -> o = Some (field_bytes o).
Proof. destruct o as [[|]|]; try discriminate. reflexivity. Qed.

Section ImportCases.
Context {B : rsa.Backend}.

Lemma from_jwk_bad_kty jwk : accepted_kty jwk = false ->
  RsaKey.from_jwk jwk = Raise RsaKey.InvalidKeyType.
Proof.
  unfold accepted_kty, RsaKey.from_jwk. intros H.
  apply orb_false_iff in H as [-> ->]. reflexivity.
Qed.

Lemma from_jwk_no_n_e jwk : accepted_kty jwk = true ->
  has_modulus_and_exponent jwk = false ->
  RsaKey.from_jwk jwk = Raise RsaKey.InvalidKeyMaterial.
Proof.
  unfold accepted_kty, has_modulus_and_exponent, RsaKey.from_jwk. intros Hk Hne.
  rewrite <- negb_orb, Hk. cbn [negb].
  rewrite <- negb_andb, Hne. reflexivity.
Qed.

Lemma from_jwk_checked jwk : accepted_kty jwk = true ->
  has_modulus_and_exponent jwk = true ->
  RsaKey.from_jwk jwk =
  (key_impl <-
     (if has_p_q_d jwk then
        dmp1 <- (if truthy (JsonWebKey.dp jwk) then Ok (field_int (JsonWebKey.dp jwk))
                 else rsa.rsa_crt_dmp1 (field_int (JsonWebKey.d jwk)) (field_int (JsonWebKey.p jwk))) ;;
        dmq1 <- (if truthy (JsonWebKey.dq jwk) then Ok (field_int (JsonWebKey.dq jwk))
                 else rsa.rsa_crt_dmq1 (field_int (JsonWebKey.d jwk)) (field_int (JsonWebKey.q jwk))) ;;
        iqmp <- (if truthy (JsonWebKey.qi jwk) then Ok (field_int (JsonWebKey.qi jwk))
                 else rsa.rsa_crt_iqmp (field_int (JsonWebKey.p jwk)) (field_int (JsonWebKey.q jwk))) ;;
        rsa.private_key
          {| rsa.p := field_int (JsonWebKey.p jwk); rsa.q := field_int (JsonWebKey.q jwk);
             rsa.d := field_int (JsonWebKey.d jwk); rsa.dmp1 := dmp1; rsa.dmq1 := dmq1;
             rsa.iqmp := iqmp; rsa.public_numbers := jwk_public_numbers jwk |}
      else rsa.public_key (jwk_public_numbers jwk)) ;;
   Ok {| RsaKey._kid := JsonWebKey.kid jwk; RsaKey.kty := JsonWebKey.kty jwk;
         RsaKey.key_ops := JsonWebKey.key_ops jwk; RsaKey._rsa_impl := key_impl |})%result.
Proof.
  unfold accepted_kty, has_modulus_and_exponent, RsaKey.from_jwk. intros Hk Hne.
  rewrite <- negb_orb, Hk. cbn [negb].
  rewrite <- negb_andb, Hne. cbn [negb].
  apply andb_true_iff in Hne as [Hn He].
  rewrite !bytes_to_int_field_truthy by assumption. cbn [rbind].
  fold (jwk_public_numbers jwk). fold (has_p_q_d jwk).
  destruct (has_p_q_d jwk) eqn:Hp; [|reflexivity].
  unfold has_p_q_d in Hp. apply andb_true_iff in Hp as [Hp Hd].
  apply andb_true_iff in Hp as [Hp Hq].
  rewrite !bytes_to_int_field_truthy by assumption. cbn [rbind].
  destruct (truthy (JsonWebKey.dp jwk)) eqn:Hdp, (truthy (JsonWebKey.dq jwk)) eqn:Hdq,
    (truthy (JsonWebKey.qi jwk)) eqn:Hqi;
    rewrite ?bytes_to_int_field_truthy by assumption; reflexivity.
Qed.

(** With p, q and d present the import succeeds exactly when the CRT values
    are there or can be derived and the backend takes the numbers. *)
Lemma from_jwk_private_iff (jwk : JsonWebKey.t) (key : RsaKey.t) :
  accepted_kty jwk = true -> has_modulus_and_exponent jwk = true ->
  has_p_q_d jwk = true ->
  let p := field_int (JsonWebKey.p jwk) in
  let q := field_int (JsonWebKey.q jwk) in
  let d := field_int (JsonWebKey.d jwk) in
  RsaKey.from_jwk jwk = Ok key <->
  exists dmp1 dmq1 iqmp,
    (if truthy (JsonWebKey.dp jwk) then dmp1 = field_int (JsonWebKey.dp jwk)
     else p - 1 <> 0 /\ dmp1 = d mod (p - 1))%Z /\
    (if truthy (JsonWebKey.dq jwk) then dmq1 = field_int (JsonWebKey.dq jwk)
     else q - 1 <> 0 /\ dmq1 = d mod (q - 1))%Z /\
    (if truthy (JsonWebKey.qi jwk) then iqmp = field_int (JsonWebKey.qi jwk)
     else rsa.rsa_crt_iqmp p q = Ok iqmp) /\
    let o := {| rsa.p := p; rsa.q := q; rsa.d := d; rsa.dmp1 := dmp1;
                rsa.dmq1 := dmq1; rsa.iqmp := iqmp;
                rsa.public_numbers := jwk_public_numbers jwk |} in
    rsa.load_rsa_private_numbers o = Ok tt /\
    key = {| RsaKey._kid := JsonWebKey.kid jwk; RsaKey.kty := JsonWebKey.kty jwk;
             RsaKey.key_ops := JsonWebKey.key_ops jwk;
             RsaKey._rsa_impl := rsa.RSAPrivateKey o |}.
Proof.
  intros Hkty Hne Hpqd p q d.
  rewrite from_jwk_checked, Hpqd by assumption. fold p q d.
  unfold rsa.rsa_crt_dmp1, rsa.rsa_crt_dmq1, rsa.private_key.
  split.
  - intros H.
    apply rbind_ok in H as (impl & H & Hk).
    apply rbind_ok in H as (dmp1 & H1 & H).
    apply rbind_ok in H as (dmq1 & H2 & H).
    apply rbind_ok in H as (iqmp & H3 & H).
    apply rbind_ok in H as ([] & H4 & H).
    injection H as <-. injection Hk as <-.
    exists dmp1, dmq1, iqmp. repeat split.
    + destruct (truthy (JsonWebKey.dp jwk)); [now injection H1|].
      now apply py_mod_ok in H1.
    + destruct (truthy (JsonWebKey.dq jwk)); [now injection H2|].
      now apply py_mod_ok in H2.
    + destruct (truthy (JsonWebKey.qi jwk)); [now injection H3|exact H3].
    + exact H4.
  - intros (dmp1 & dmq1 & iqmp & H1 & H2 & H3 & H4 & ->).
    apply rbind_ok. eexists. split; [|reflexivity].
    apply rbind_ok. exists dmp1. split.
    { destruct (truthy (JsonWebKey.dp jwk)); [now subst|]. now apply py_mod_ok. }
    apply rbind_ok. exists dmq1. split.
    { destruct (truthy (JsonWebKey.dq jwk)); [now subst|]. now apply py_mod_ok. }
    apply rbind_ok. exists iqmp. split.
    { destruct (truthy (JsonWebKey.qi jwk)); [now subst|exact H3]. }
    cbv zeta in H4. rewrite H4. reflexivity.
Qed.

End ImportCases.

(** * Specification claims *)

(** ** Codec *)

(** C2 (as amended).  For a non-negative integer [i], [_int_to_bytes i]
    returns a byte string [c] that [_bytes_to_int] reads back as [i]; [c] is
    a big-endian encoding of [i], it is the single byte 00 when [i] is zero
    and has no leading zero byte otherwise, and no non-empty encoding of [i]
    is shorter.  For a non-empty byte string [b],
    [_int_to_bytes (_bytes_to_int b)] is [b] with its leading zero bytes
    stripped when a non-zero byte is left, and the single byte 00 when [b]
    holds zero bytes only.  On the empty byte string [_bytes_to_int] raises
    ValueError. *)
Theorem codec_roundtrip (i : Z) (b : bytes) (Hi : (0 <= i)%Z) (Hb : b <> []) :
  (exists c, _int_to_bytes i = Ok c /\ _bytes_to_int c = Ok i /\
             be_value c = Z.to_N i /\
             (i = 0%Z -> c = [x00]) /\
             ((0 < i)%Z -> no_leading_zero c = true) /\
             (forall c', c' <> [] -> be_value c' = Z.to_N i ->
                         (List.length c <= List.length c')%nat)) /\
  (x <- _bytes_to_int b ;; _int_to_bytes x)%result = Ok (canonical b) /\
  (strip_zeros b <> [] -> canonical b = strip_zeros b) /\
  (strip_zeros b = [] -> canonical b = [x00]) /\
  (exists m, _bytes_to_int [] = Raise (ValueError m)).
Proof.
  split; [|split; [|split; [|split]]].
  - destruct (int_to_bytes_roundtrip i Hi) as (c & Ec & Rc).
    destruct (int_to_bytes_spec i Hi) as (c' & Ec' & _ & Hv & Hz & Hh).
    rewrite Ec in Ec'. injection Ec' as <-.
    exists c. repeat split; auto.
    + intros Hpos. destruct (Hh Hpos) as (x & r & -> & Hx).
      now apply head_no_leading_zero.
    + intros c' Hc' Hv'. eapply int_to_bytes_minimal; eauto.
  - rewrite bytes_to_int_value by exact Hb. cbn [rbind].
    now apply int_to_bytes_canonical.
  - unfold canonical. destruct (strip_zeros b); [contradiction|reflexivity].
  - unfold canonical. intros ->. reflexivity.
  - apply bytes_to_int_empty.
Qed.

(** The theorem at 65537 and at the three bytes 00 01 00. *)
Lemma codec_roundtrip_witness :
  (exists c, _int_to_bytes 65537 = Ok c /\ _bytes_to_int c = Ok 65537%Z) /\
  (x <- _bytes_to_int [x00; x01; x00] ;; _int_to_bytes x)%result = Ok [x01; x00].
Proof.
  assert (Hi : (0 <= 65537)%Z) by lia.
  assert (Hb : [x00; x01; x00] <> []) by discriminate.
  destruct (codec_roundtrip 65537 [x00; x01; x00] Hi Hb) as ((c & Ec & Rc & _) & Hr & _).
  split; [exists c; split; assumption | exact Hr].
Defined.

(** C2 as stated fails on the byte string 00, which comes back as 00 and not
    stripped to nothing, and on the empty byte string, where decoding
    raises. *)
Lemma codec_inverse_counterexample :
  (x <- _bytes_to_int [x00] ;; _int_to_bytes x)%result = Ok [x00] /\
  strip_zeros [x00] = [] /\
  (x <- _bytes_to_int [] ;; _int_to_bytes x)%result
    = Raise (ValueError "invalid literal for int() with base 16").
Proof. repeat split. Qed.

(** ** Default algorithms *)

(** C1 as stated fails: the default of encrypt and of wrapKey is RSA-OAEP,
    which is not RSA-OAEP-256. *)
Lemma default_algorithm_counterexample :
  fst (RsaKey.default_encryption_algorithm Sample.private_key) = Ok "RSA-OAEP"%string /\
  fst (RsaKey.default_key_wrap_algorithm Sample.private_key) = Ok "RSA-OAEP"%string /\
  fst (RsaKey._get_algorithm "encrypt" None Sample.private_key) = Ok algorithms.RsaOaep /\
  algorithms.name algorithms.RsaOaep <> "RSA-OAEP-256"%string.
Proof. repeat split. discriminate. Qed.

(** C1 (as amended).  On every key [default_encryption_algorithm] and
    [default_key_wrap_algorithm] name RSA-OAEP and
    [default_signature_algorithm] names RS256; so without a name from the
    caller encrypt, wrapKey, decrypt and unwrapKey run RSA-OAEP and sign and
    verify run RS256. *)
Theorem default_algorithms (k : RsaKey.t) :
  RsaKey.default_encryption_algorithm k = (Ok "RSA-OAEP"%string, k) /\
  RsaKey.default_key_wrap_algorithm k = (Ok "RSA-OAEP"%string, k) /\
  RsaKey.default_signature_algorithm k = (Ok "RS256"%string, k) /\
  RsaKey._get_algorithm "encrypt" None k = (Ok algorithms.RsaOaep, k) /\
  RsaKey._get_algorithm "wrapKey" None k = (Ok algorithms.RsaOaep, k) /\
  RsaKey._get_algorithm "decrypt" None k = (Ok algorithms.RsaOaep, k) /\
  RsaKey._get_algorithm "unwrapKey" None k = (Ok algorithms.RsaOaep, k) /\
  RsaKey._get_algorithm "sign" None k = (Ok algorithms.Rs256, k) /\
  RsaKey._get_algorithm "verify" None k = (Ok algorithms.Rs256, k).
Proof. repeat split. Qed.

(** ** Private accessors *)

(** C3, where the code departs from it.  On every private key the accessor
    [p] raises AttributeError: it reads the attribute p off the public
    numbers, which have n and e only, where its siblings read the private
    numbers.  On the example key the number p is 61, whose encoding, the
    byte 3d, is what the claim expects. *)
Theorem p_accessor_raises_on_private_key
    (kid kty : option string) (ops : option (list string)) (o : rsa.RSAPrivateNumbers) :
  let k := {| RsaKey._kid := kid; RsaKey.kty := kty; RsaKey.key_ops := ops;
              RsaKey._rsa_impl := rsa.RSAPrivateKey o |} in
  RsaKey.p k = (Raise (AttributeError "RSAPublicNumbers" "p"), k) /\
  RsaKey.p Sample.private_key
    = (Raise (AttributeError "RSAPublicNumbers" "p"), Sample.private_key) /\
  RsaKey.q Sample.private_key = (Ok (Some [x35]), Sample.private_key) /\
  _int_to_bytes (rsa.p Sample.private_numbers) = Ok [x3d].
Proof. repeat split. Qed.

(** ** Import *)

Section ImportClaims.
Context {B : rsa.Backend}.

(** C6.  Whatever the backend, [from_jwk] raises the ValueError of the key
    type (InvalidKeyType) when kty is neither RSA nor RSA-HSM, and the
    ValueError of the key material (InvalidKeyMaterial) when kty is accepted
    and n or e is absent or empty.  The key type is looked at first, and
    neither outcome depends on the backend: no key has been built. *)
Theorem from_jwk_rejects (jwk : JsonWebKey.t)
    (H : accepted_kty jwk = false \/ has_modulus_and_exponent jwk = false) :
  RsaKey.from_jwk jwk =
  Raise (if accepted_kty jwk then RsaKey.InvalidKeyMaterial else RsaKey.InvalidKeyType).
Proof.
  destruct (accepted_kty jwk) eqn:Hk.
  - destruct H as [H|H]; [discriminate|]. now apply from_jwk_no_n_e.
  - now apply from_jwk_bad_kty.
Qed.

(** C10.  When kty is accepted, n and e are present and make public numbers
    the backend takes, and one of p, q, d is absent, [from_jwk] returns a
    public-only key built from n and e, the same key as for the JWK without
    any private field, and each private accessor of it is absent. *)
Theorem from_jwk_public_only (jwk : JsonWebKey.t)
    (Hkty : accepted_kty jwk = true)
    (Hne : has_modulus_and_exponent jwk = true)
    (Hpqd : has_p_q_d jwk = false)
    (Hvalid : rsa.load_rsa_public_numbers (jwk_public_numbers jwk) = Ok tt) :
  let k := {| RsaKey._kid := JsonWebKey.kid jwk; RsaKey.kty := JsonWebKey.kty jwk;
              RsaKey.key_ops := JsonWebKey.key_ops jwk;
              RsaKey._rsa_impl := rsa.RSAPublicKey (jwk_public_numbers jwk) |} in
  RsaKey.from_jwk jwk = Ok k /\
  RsaKey.from_jwk (public_part jwk) = Ok k /\
  public_only k = true /\
  RsaKey.p k = (Ok None, k) /\ RsaKey.q k = (Ok None, k) /\ RsaKey.d k = (Ok None, k) /\
  RsaKey.dp k = (Ok None, k) /\ RsaKey.dq k = (Ok None, k) /\ RsaKey.qi k = (Ok None, k).
Proof.
  intros k.
  assert (E : RsaKey.from_jwk jwk = Ok k).
  { rewrite from_jwk_checked, Hpqd by assumption.
    unfold rsa.public_key. rewrite Hvalid. reflexivity. }
  split; [exact E|]. split.
  - rewrite from_jwk_checked by assumption.
    change (has_p_q_d (public_part jwk)) with false.
    change (jwk_public_numbers (public_part jwk)) with (jwk_public_numbers jwk).
    cbv iota. unfold rsa.public_key. rewrite Hvalid. reflexivity.
  - split; [reflexivity|]. now apply private_accessors_public_only.
Qed.

(** C4.  For a JWK with accepted kty, n and e, and p, q and d present:
    [from_jwk] returns a key exactly when it is a private key over p, q, d
    and CRT values the backend takes, where each of dmp1, dmq1, iqmp is the
    number in dp, dq, qi when that field is present, with no comparison
    against p, q, d, and is otherwise d mod (p-1), d mod (q-1) and the
    result of rsa_crt_iqmp(p, q).  That result is the inverse of q modulo p
    whenever there is one (p above 1 and coprime to q). *)
Theorem from_jwk_crt (jwk : JsonWebKey.t) (key : RsaKey.t)
    (Hkty : accepted_kty jwk = true)
    (Hne : has_modulus_and_exponent jwk = true)
    (Hpqd : has_p_q_d jwk = true) :
  let p := field_int (JsonWebKey.p jwk) in
  let q := field_int (JsonWebKey.q jwk) in
  let d := field_int (JsonWebKey.d jwk) in
  (RsaKey.from_jwk jwk = Ok key <->
   exists dmp1 dmq1 iqmp,
     (if truthy (JsonWebKey.dp jwk) then dmp1 = field_int (JsonWebKey.dp jwk)
      else p - 1 <> 0 /\ dmp1 = d mod (p - 1))%Z /\
     (if truthy (JsonWebKey.dq jwk) then dmq1 = field_int (JsonWebKey.dq jwk)
      else q - 1 <> 0 /\ dmq1 = d mod (q - 1))%Z /\
     (if truthy (JsonWebKey.qi jwk) then iqmp = field_int (JsonWebKey.qi jwk)
      else rsa.rsa_crt_iqmp p q = Ok iqmp) /\
     let o := {| rsa.p := p; rsa.q := q; rsa.d := d; rsa.dmp1 := dmp1;
                 rsa.dmq1 := dmq1; rsa.iqmp := iqmp;
                 rsa.public_numbers := jwk_public_numbers jwk |} in
     rsa.load_rsa_private_numbers o = Ok tt /\
     key = {| RsaKey._kid := JsonWebKey.kid jwk; RsaKey.kty := JsonWebKey.kty jwk;
              RsaKey.key_ops := JsonWebKey.key_ops jwk;
              RsaKey._rsa_impl := rsa.RSAPrivateKey o |}) /\
  ((1 < p)%Z -> Z.gcd q p = 1%Z ->
   exists i, rsa.rsa_crt_iqmp p q = Ok i /\ ((i * q) mod p = 1 /\ 0 <= i < p)%Z).
Proof.
  intros p q d. split.
  - now apply from_jwk_private_iff.
  - intros Hp Hg. unfold rsa.rsa_crt_iqmp.
    apply modinv_correct; [exact Hp | apply field_int_nonneg | exact Hg].
Qed.

(** C5 (as amended).  For a JWK with accepted kty, n and e and all of p, q,
    d, dp, dq, qi present that [from_jwk] imports, the key is a private key
    whose accessors q, d, dp, dq, qi return the JWK field with its leading
    zero bytes stripped (the byte 00 for a field of zero bytes only), and so
    does the encoding of its number p; each is byte-identical to the JWK
    field when that field is minimal. *)
Theorem from_jwk_full_roundtrip (jwk : JsonWebKey.t) (key : RsaKey.t)
    (Hkty : accepted_kty jwk = true)
    (Hne : has_modulus_and_exponent jwk = true)
    (Hpqd : has_p_q_d jwk = true)
    (Hcrt : has_crt jwk = true)
    (Himport : RsaKey.from_jwk jwk = Ok key) :
  exists o,
    RsaKey._rsa_impl key = rsa.RSAPrivateKey o /\
    _int_to_bytes (rsa.p o) = Ok (canonical (field_bytes (JsonWebKey.p jwk))) /\
    RsaKey.q key = (Ok (Some (canonical (field_bytes (JsonWebKey.q jwk)))), key) /\
    RsaKey.d key = (Ok (Some (canonical (field_bytes (JsonWebKey.d jwk)))), key) /\
    RsaKey.dp key = (Ok (Some (canonical (field_bytes (JsonWebKey.dp jwk)))), key) /\
    RsaKey.dq key = (Ok (Some (canonical (field_bytes (JsonWebKey.dq jwk)))), key) /\
    RsaKey.qi key = (Ok (Some (canonical (field_bytes (JsonWebKey.qi jwk)))), key) /\
    (minimal (field_bytes (JsonWebKey.p jwk)) = true ->
     _int_to_bytes (rsa.p o) = Ok (field_bytes (JsonWebKey.p jwk))) /\
    (minimal (field_bytes (JsonWebKey.q jwk)) = true ->
     RsaKey.q key = (Ok (JsonWebKey.q jwk), key)) /\
    (minimal (field_bytes (JsonWebKey.d jwk)) = true ->
     RsaKey.d key = (Ok (JsonWebKey.d jwk), key)) /\
    (minimal (field_bytes (JsonWebKey.dp jwk)) = true ->
     RsaKey.dp key = (Ok (JsonWebKey.dp jwk), key)) /\
    (minimal (field_bytes (JsonWebKey.dq jwk)) = true ->
     RsaKey.dq key = (Ok (JsonWebKey.dq jwk), key)) /\
    (minimal (field_bytes (JsonWebKey.qi jwk)) = true ->
     RsaKey.qi key = (Ok (JsonWebKey.qi jwk), key)).
Proof.
  apply (proj1 (from_jwk_private_iff jwk key Hkty Hne Hpqd)) in Himport
    as (dmp1 & dmq1 & iqmp & H1 & H2 & H3 & _ & ->).
  unfold has_crt in Hcrt. apply andb_true_iff in Hcrt as [Hcrt Hqi].
  apply andb_true_iff in Hcrt as [Hdp Hdq].
  unfold has_p_q_d in Hpqd. apply andb_true_iff in Hpqd as [Hpqd Hd].
  apply andb_true_iff in Hpqd as [Hp Hq].
  rewrite Hdp in H1. rewrite Hdq in H2. rewrite Hqi in H3. subst dmp1 dmq1 iqmp.
  eexists. split; [reflexivity|].
  cbn [rsa.p].
  unfold RsaKey.q, RsaKey.d, RsaKey.dp, RsaKey.dq, RsaKey.qi.
  rewrite (private_field_private _ _ _ _ "q" _ eq_refl).
  rewrite (private_field_private _ _ _ _ "d" _ eq_refl).
  rewrite (private_field_private _ _ _ _ "dmp1" _ eq_refl).
  rewrite (private_field_private _ _ _ _ "dmq1" _ eq_refl).
  rewrite (private_field_private _ _ _ _ "iqmp" _ eq_refl).
  cbn [rsa.p rsa.q rsa.d rsa.dmp1 rsa.dmq1 rsa.iqmp].
  rewrite !field_int_encoding by assumption.
  repeat split; try reflexivity; intros Hm; rewrite (canonical_minimal _ Hm);
    try reflexivity; rewrite <- truthy_some by assumption; reflexivity.
Qed.

End ImportClaims.

(** Both rejections, on a JWK of key type EC and on an RSA-HSM one without
    e. *)
Lemma from_jwk_rejects_witness :
  @RsaKey.from_jwk rsa.component_checks Sample.jwk_ec = Raise RsaKey.InvalidKeyType /\
  @RsaKey.from_jwk rsa.component_checks Sample.jwk_no_e = Raise RsaKey.InvalidKeyMaterial.
Proof.
  split.
  - exact (@from_jwk_rejects rsa.component_checks Sample.jwk_ec (or_introl eq_refl)).
  - exact (@from_jwk_rejects rsa.component_checks Sample.jwk_no_e (or_intror eq_refl)).
Defined.

(** A JWK with p, q, dp, dq, qi but no d becomes the public key. *)
Lemma from_jwk_public_only_witness :
  @RsaKey.from_jwk rsa.component_checks Sample.jwk_no_d = Ok Sample.public_key.
Proof.
  exact (proj1 (@from_jwk_public_only rsa.component_checks Sample.jwk_no_d
                  eq_refl eq_refl eq_refl eq_refl)).
Defined.

(** With p = 61, q = 53 and d = 2753 alone, the import derives dp = 53,
    dq = 49 and qi = 38. *)
Lemma from_jwk_crt_witness :
  @RsaKey.from_jwk rsa.component_checks Sample.jwk_minimal = Ok Sample.private_key.
Proof.
  apply (proj1 (@from_jwk_crt rsa.component_checks Sample.jwk_minimal
                  Sample.private_key eq_refl eq_refl eq_refl)).
  exists 53%Z, 49%Z, 38%Z. repeat split; cbn; lia.
Defined.

Lemma from_jwk_full_roundtrip_witness :
  RsaKey.q Sample.private_key = (Ok (Some [x35]), Sample.private_key) /\
  RsaKey.dp Sample.private_key = (Ok (Some [x35]), Sample.private_key).
Proof.
  destruct (@from_jwk_full_roundtrip rsa.component_checks Sample.jwk_full Sample.private_key
              eq_refl eq_refl eq_refl eq_refl eq_refl)
    as (o & _ & _ & _ & _ & _ & _ & _ & _ & Hq & _ & Hdp & _).
  split; [exact (Hq eq_refl) | exact (Hdp eq_refl)].
Defined.

(** C5 as stated fails on the example key with q written on the two bytes
    00 35: the import succeeds, the private export raises, and the accessor
    q returns the single byte 35. *)
Lemma full_roundtrip_counterexample :
  @RsaKey.from_jwk rsa.component_checks Sample.jwk_padded = Ok Sample.private_key /\
  has_p_q_d Sample.jwk_padded && has_crt Sample.jwk_padded = true /\
  RsaKey.to_jwk true Sample.private_key
    = (Raise (AttributeError "RSAPublicNumbers" "p"), Sample.private_key) /\
  RsaKey.q Sample.private_key = (Ok (Some [x35]), Sample.private_key) /\
  JsonWebKey.q Sample.jwk_padded = Some [x00; x35].
Proof. repeat split. Qed.

(** ** Operations and export *)

Section OperationClaims.
Context {T : algorithms.Transforms}.

(** C7 (as amended).  On a public-only key decrypt, sign and unwrap_key
    raise NotImplementedError (UnsupportedOperation) and leave the key as it
    was; [to_jwk] with include_private set does not raise: it returns kid,
    kty, the key's own key_ops, n and e, with p, q, d, dp, dq, qi absent,
    and leaves the key as it was. *)
Theorem public_only_operations (k : RsaKey.t) (data : bytes) (algorithm : option string)
    (Hpub : public_only k = true) (Hnum : nonneg_key k = true) :
  RsaKey.decrypt data algorithm k = (Raise (RsaKey.UnsupportedOperation "decrypt"), k) /\
  RsaKey.sign data algorithm k = (Raise (RsaKey.UnsupportedOperation "sign"), k) /\
  RsaKey.unwrap_key data algorithm k = (Raise (RsaKey.UnsupportedOperation "unwrap"), k) /\
  exists vn ve,
    RsaKey.n k = (Ok vn, k) /\ RsaKey.e k = (Ok ve, k) /\
    RsaKey.to_jwk true k =
    (Ok (JsonWebKey.make (RsaKey._kid k) (RsaKey.kty k) (RsaKey.key_ops k)
           (Some vn) (Some ve)), k).
Proof.
  destruct (n_e_run k Hnum) as (vn & ve & En & Ee).
  assert (Hpriv : RsaKey.is_private_key k = (Ok false, k))
    by (destruct k as [kid kty ops [o|o]]; [discriminate|reflexivity]).
  unfold RsaKey.decrypt, RsaKey.sign, RsaKey.unwrap_key.
  rewrite !(bind_ok _ _ _ _ _ Hpriv).
  repeat (split; [reflexivity|]).
  exists vn, ve. split; [exact En|]. split; [exact Ee|].
  destruct (private_accessors_public_only k Hpub) as (Ep & Eq & Ed & Edp & Edq & Eqi).
  unfold RsaKey.to_jwk.
  rewrite bind_kid, bind_self.
  rewrite (bind_ok _ _ _ _ _ En), (bind_ok _ _ _ _ _ Ee).
  rewrite (bind_ok _ _ _ _ _ Eq), (bind_ok _ _ _ _ _ Ep), (bind_ok _ _ _ _ _ Ed).
  rewrite (bind_ok _ _ _ _ _ Edq), (bind_ok _ _ _ _ _ Edp), (bind_ok _ _ _ _ _ Eqi).
  reflexivity.
Qed.

(** C9.  Once the algorithm is resolved and its signature transform built,
    [verify] returns False when the transform raises InvalidSignature, True
    when the transform returns, and lets any other exception of the
    transform through; the key is left as it was. *)
Theorem verify_outcomes (k : RsaKey.t) (digest signature : bytes)
    (algorithm : option string) (a : algorithms.Algorithm)
    (signer : algorithms.SignatureTransform)
    (Halg : RsaKey._get_algorithm "verify" algorithm k = (Ok a, k))
    (Hsigner : algorithms.create_signature_transform a (RsaKey._rsa_impl k) = Ok signer) :
  (algorithms.verify signer digest signature = Raise InvalidSignature ->
   RsaKey.verify digest signature algorithm k = (Ok false, k)) /\
  (algorithms.verify signer digest signature = Ok tt ->
   RsaKey.verify digest signature algorithm k = (Ok true, k)) /\
  (forall err, err <> InvalidSignature ->
   algorithms.verify signer digest signature = Raise err ->
   RsaKey.verify digest signature algorithm k = (Raise err, k)).
Proof.
  unfold RsaKey.verify.
  rewrite (bind_ok _ _ _ _ _ Halg), bind_self, bind_lift, Hsigner.
  unfold RsaKey.try_except. rewrite bind_lift.
  repeat split.
  - intros ->. reflexivity.
  - intros ->. reflexivity.
  - intros err Herr ->. destruct err; try reflexivity. contradiction.
Qed.

End OperationClaims.

Lemma public_only_operations_witness :
  @RsaKey.decrypt Sample.toy_transforms [x01] None Sample.public_key
  = (Raise (RsaKey.UnsupportedOperation "decrypt"), Sample.public_key).
Proof.
  exact (proj1 (@public_only_operations Sample.toy_transforms Sample.public_key [x01] None
                  eq_refl eq_refl)).
Defined.

(** C7 as stated fails on the private export of a public-only key, which
    returns a JWK. *)
Lemma private_export_counterexample :
  RsaKey.to_jwk true Sample.public_key
  = (Ok (JsonWebKey.make (Some "k1"%string) (Some "RSA"%string) Sample.ops
           (Some [x0c; xa1]) (Some [x11])), Sample.public_key).
Proof. reflexivity. Qed.

(** A mismatch, a match and a signature of the wrong length. *)
Lemma verify_outcomes_witness :
  @RsaKey.verify Sample.toy_transforms [x01] [x02] None Sample.public_key
  = (Ok false, Sample.public_key) /\
  @RsaKey.verify Sample.toy_transforms [x01] [x01] None Sample.public_key
  = (Ok true, Sample.public_key) /\
  @RsaKey.verify Sample.toy_transforms [x01] [x02; x03] None Sample.public_key
  = (Raise (ValueError "malformed signature"), Sample.public_key).
Proof.
  destruct (@verify_outcomes Sample.toy_transforms Sample.public_key [x01] [x02] None
              algorithms.Rs256 Sample.toy_signer eq_refl eq_refl) as (H1 & _).
  destruct (@verify_outcomes Sample.toy_transforms Sample.public_key [x01] [x01] None
              algorithms.Rs256 Sample.toy_signer eq_refl eq_refl) as (_ & H2 & _).
  destruct (@verify_outcomes Sample.toy_transforms Sample.public_key [x01] [x02; x03] None
              algorithms.Rs256 Sample.toy_signer eq_refl eq_refl) as (_ & _ & H3).
  split; [exact (H1 eq_refl)|]. split; [exact (H2 eq_refl)|].
  apply H3; [discriminate | reflexivity].
Defined.

(** C8, where the code departs from it.  On the example private key the
    public export returns kid, kty, n, e and the fixed public operations,
    and the private export raises AttributeError at the accessor [p]
    instead of returning the key's own key_ops. *)
Theorem to_jwk_private_export_raises :
  RsaKey.to_jwk false Sample.private_key
  = (Ok (JsonWebKey.make (Some "k1"%string) (Some "RSA"%string)
           (Some RsaKey.PUBLIC_KEY_DEFAULT_OPS) (Some [x0c; xa1]) (Some [x11])),
     Sample.private_key) /\
  RsaKey.to_jwk true Sample.private_key
  = (Raise (AttributeError "RSAPublicNumbers" "p"), Sample.private_key) /\
  RsaKey.key_ops Sample.private_key = Some ["sign"; "decrypt"]%string.
Proof. repeat split. Qed.

(** * Further properties *)

(** ** More on the codec *)

Lemma lstrip_head c s :
  match s with x :: _ => Ascii.eqb x c = false | [] => True end -> lstrip c s = s.
Proof. destruct s as [|x r]; [reflexivity|]. cbn. now intros ->. Qed.

Lemma hex_magnitude_nonempty n : hex_magnitude n <> [].
Proof.
  unfold hex_magnitude. destruct (N.eqb_spec n 0) as [|Hz]; [discriminate|].
  destruct (hex_of_N_head (N.to_nat (N.size n)) n [] Hz (size_fuel n)) as (d & r & E & _).
  rewrite E. discriminate.
Qed.

Lemma rev_head_lower s : Forall lower_hex s -> s <> [] ->
  exists c r, rev s = c :: r /\ lower_hex c.
Proof.
  intros H Hne. apply Forall_rev in H.
  destruct (rev s) as [|c r] eqn:E.
  - apply (f_equal (@rev ascii)) in E. rewrite rev_involutive in E. contradiction.
  - exists c, r. split; [reflexivity|]. now inversion H.
Qed.

Lemma strip_negative_hex D : Forall lower_hex D -> D <> [] ->
  strip "L" ("-"%char :: "0"%char :: "x"%char :: D) = "-"%char :: "0"%char :: "x"%char :: D.
Proof.
  intros HD Hne. unfold strip.
  rewrite (lstrip_head "L" ("-"%char :: _)) by reflexivity.
  rewrite lstrip_head; [apply rev_involutive|].
  destruct (rev_head_lower D HD Hne) as (c & r & E & Hc).
  change ("-"%char :: "0"%char :: "x"%char :: D) with (["-"%char; "0"%char; "x"%char] ++ D).
  rewrite rev_app_distr, E. cbn. now apply lower_hex_not_L.
Qed.

Lemma pow256_Z (k : nat) : Z.of_N (256 ^ N.of_nat k) = (256 ^ Z.of_nat k)%Z.
Proof. rewrite N2Z.inj_pow, nat_N_Z. reflexivity. Qed.

Lemma be_value_canonical b : be_value (canonical b) = be_value b.
Proof.
  unfold canonical. pose proof (be_value_strip b) as H.
  destruct (strip_zeros b); [rewrite <- H; reflexivity | exact H].
Qed.

Lemma canonical_no_leading_zero b : strip_zeros b <> [] -> no_leading_zero (canonical b) = true.
Proof.
  intros H. unfold canonical. pose proof (strip_zeros_head b) as Hh.
  destruct (strip_zeros b); [contradiction|exact Hh].
Qed.

Lemma be_value_zero_strip b : be_value b = 0%N -> strip_zeros b = [].
Proof.
  intros H. pose proof (be_value_strip b) as Hs. pose proof (strip_zeros_head b) as Hh.
  destruct (strip_zeros b) as [|x r]; [reflexivity|].
  cbn in Hh. apply negb_true_iff in Hh.
  pose proof (be_value_lower x r Hh).
  pose proof (N.pow_nonzero 256 (N.of_nat (List.length r))). lia.
Qed.

Lemma canonical_eq_iff a b : canonical a = canonical b <-> be_value a = be_value b.
Proof.
  split.
  - intros H. rewrite <- (be_value_canonical a), <- (be_value_canonical b), H. reflexivity.
  - intros H. unfold canonical.
    destruct (N.eq_dec (be_value a) 0) as [Z|NZ].
    + rewrite (be_value_zero_strip a Z), (be_value_zero_strip b) by lia. reflexivity.
    + assert (E : strip_zeros a = strip_zeros b).
      { apply be_value_unique; try apply strip_zeros_head.
        now rewrite !be_value_strip. }
      rewrite E. reflexivity.
Qed.

(** X1.  The encoding of a non-negative integer has exactly the bytes it
    needs: [i] is below 256 to the number of bytes, a positive [i] is at
    least 256 to that number less one, and zero takes one byte. *)
Theorem int_to_bytes_length (i : Z) (Hi : (0 <= i)%Z) :
  exists b, _int_to_bytes i = Ok b /\
    (i < 256 ^ Z.of_nat (List.length b))%Z /\
    ((0 < i)%Z -> (256 ^ (Z.of_nat (List.length b) - 1) <= i)%Z) /\
    (i = 0%Z -> List.length b = 1%nat).
Proof.
  destruct (int_to_bytes_spec i Hi) as (b & Eb & _ & Hv & Hz & Hh).
  exists b. split; [exact Eb|].
  pose proof (be_value_lt b) as Hlt. rewrite Hv in Hlt.
  split; [|split].
  - rewrite <- pow256_Z. lia.
  - intros Hpos. destruct (Hh Hpos) as (x & r & -> & Hx).
    assert (Hxb : Byte.eqb x x00 = false).
    { destruct (Byte.eqb x x00) eqn:E; [|reflexivity].
      apply Byte.byte_dec_bl in E. contradiction. }
    pose proof (be_value_lower x r Hxb) as Hlo. rewrite Hv in Hlo.
    cbn [List.length]. replace (Z.of_nat (S (List.length r)) - 1)%Z
      with (Z.of_nat (List.length r)) by lia.
    rewrite <- pow256_Z. lia.
  - intros ->. now rewrite (Hz eq_refl).
Qed.

Lemma int_to_bytes_length_witness :
  exists b, _int_to_bytes 65537 = Ok b /\ (65537 < 256 ^ Z.of_nat (List.length b))%Z.
Proof.
  assert (Hi : (0 <= 65537)%Z) by lia.
  destruct (int_to_bytes_length 65537 Hi) as (b & Eb & Hlt & _).
  exists b. split; assumption.
Defined.

(** X2.  Two non-empty byte strings decode to the same integer exactly when
    they have the same canonical form, that is, when they differ in leading
    zero bytes only. *)
Theorem bytes_to_int_same_iff (a b : bytes) (Ha : a <> []) (Hb : b <> []) :
  _bytes_to_int a = _bytes_to_int b <-> canonical a = canonical b.
Proof.
  rewrite !bytes_to_int_value by assumption.
  rewrite canonical_eq_iff. split.
  - intros H. injection H as H. lia.
  - intros ->. reflexivity.
Qed.

Lemma bytes_to_int_same_iff_witness :
  _bytes_to_int [x00; x00; x35] = _bytes_to_int [x35].
Proof.
  assert (Ha : [x00; x00; x35] <> []) by discriminate.
  assert (Hb : [x35] <> []) by discriminate.
  exact (proj2 (bytes_to_int_same_iff [x00; x00; x35] [x35] Ha Hb) eq_refl).
Defined.

(** X3.  Decoding a non-empty byte string returns a non-negative integer
    below 256 to the number of bytes; it does not raise. *)
Theorem bytes_to_int_range (b : bytes) (Hb : b <> []) :
  exists i, _bytes_to_int b = Ok i /\ (0 <= i < 256 ^ Z.of_nat (List.length b))%Z.
Proof.
  exists (Z.of_N (be_value b)). split; [now apply bytes_to_int_value|].
  pose proof (be_value_lt b). rewrite <- pow256_Z. lia.
Qed.

Lemma bytes_to_int_range_witness :
  exists i, _bytes_to_int [xff; xff] = Ok i /\ (0 <= i < 256 ^ 2)%Z.
Proof.
  assert (Hb : [xff; xff] <> []) by discriminate.
  exact (bytes_to_int_range [xff; xff] Hb).
Defined.

(** X4.  [_int_to_bytes] raises on every negative integer: the minus sign of
    [hex(i)] keeps the 0x prefix from being cut and reaches the hex decoder,
    which reports a non-hexadecimal digit. *)
Theorem int_to_bytes_rejects_negative (i : Z) (Hi : (i < 0)%Z) :
  _int_to_bytes i = Raise (BinasciiError "Non-hexadecimal digit found").
Proof.
  destruct i as [|p|p]; try lia.
  unfold _int_to_bytes.
  change (hex (Z.neg p)) with ("-"%char :: "0"%char :: "x"%char :: hex_magnitude (N.pos p)).
  cbn [List.length Nat.ltb Nat.leb firstn skipn andb lit list_ascii_of_string str_eqb].
  change (Ascii.eqb "-" "0") with false. cbn [andb].
  rewrite strip_negative_hex by (apply hex_magnitude_lower || apply hex_magnitude_nonempty).
  set (D := hex_magnitude (N.pos p)).
  assert (P3 : Nat.odd (List.length ("-"%char :: "0"%char :: "x"%char :: D))
               = negb (Nat.odd (List.length D))).
  { cbn [List.length]. now rewrite Nat.odd_succ_succ, Nat.odd_succ, <- Nat.negb_odd. }
  rewrite P3. unfold unhexlify.
  destruct (Nat.odd (List.length D)) eqn:E; cbn [negb].
  - rewrite P3. reflexivity.
  - cbn [app List.length]. rewrite !Nat.odd_succ_succ, E. reflexivity.
Qed.

Lemma int_to_bytes_rejects_negative_witness :
  _int_to_bytes (-65537) = Raise (BinasciiError "Non-hexadecimal digit found").
Proof.
  assert (Hi : (-65537 < 0)%Z) by lia.
  exact (int_to_bytes_rejects_negative (-65537) Hi).
Defined.



Lemma mod_pred_nonneg d p : (0 <= p)%Z -> (p - 1 <> 0)%Z -> (0 <= d mod (p - 1))%Z.
Proof.
  intros Hp Hne. destruct (Z.eq_dec p 0) as [->|Hz].
  - pose proof (Z.mod_neg_bound d (-1) ltac:(lia)). cbn. lia.
  - apply Z.mod_pos_bound. lia.
Qed.

Lemma modinv_nonneg e m i : (0 <= m)%Z -> rsa._modinv e m = Ok i -> (0 <= i)%Z.
Proof.
  intros Hm H. unfold rsa._modinv in H. apply py_mod_ok in H as [Hz ->].
  apply Z.mod_pos_bound. lia.
Qed.

Section ImportShape.
Context {B : rsa.Backend}.

(** What a successful import looks like. *)
Lemma from_jwk_ok_shape jwk key : RsaKey.from_jwk jwk = Ok key ->
  accepted_kty jwk = true /\ has_modulus_and_exponent jwk = true /\
  exists impl,
    key = {| RsaKey._kid := JsonWebKey.kid jwk; RsaKey.kty := JsonWebKey.kty jwk;
             RsaKey.key_ops := JsonWebKey.key_ops jwk; RsaKey._rsa_impl := impl |} /\
    if has_p_q_d jwk then
      exists o, impl = rsa.RSAPrivateKey o /\
                rsa.public_numbers o = jwk_public_numbers jwk /\
                nonneg_private o = true /\
                rsa.load_rsa_private_numbers o = Ok tt
    else impl = rsa.RSAPublicKey (jwk_public_numbers jwk) /\
         rsa.load_rsa_public_numbers (jwk_public_numbers jwk) = Ok tt.
Proof.
  intros H.
  destruct (accepted_kty jwk) eqn:Hk.
  2:{ rewrite from_jwk_bad_kty in H by exact Hk. discriminate. }
  destruct (has_modulus_and_exponent jwk) eqn:Hne.
  2:{ rewrite from_jwk_no_n_e in H by assumption. discriminate. }
  split; [reflexivity|]. split; [reflexivity|].
  destruct (has_p_q_d jwk) eqn:Hp.
  - apply (from_jwk_private_iff jwk key Hk Hne Hp) in H
      as (dmp1 & dmq1 & iqmp & H1 & H2 & H3 & H4 & ->).
    eexists. split; [reflexivity|]. eexists. split; [reflexivity|].
    split; [reflexivity|]. split; [|exact H4].
    unfold nonneg_private, nonneg_public, jwk_public_numbers. cbn.
    pose proof (field_int_nonneg (JsonWebKey.p jwk)).
    pose proof (field_int_nonneg (JsonWebKey.q jwk)).
    pose proof (field_int_nonneg (JsonWebKey.d jwk)).
    pose proof (field_int_nonneg (JsonWebKey.n jwk)).
    pose proof (field_int_nonneg (JsonWebKey.e jwk)).
    assert (0 <= dmp1)%Z.
    { destruct (truthy (JsonWebKey.dp jwk)); [subst; apply field_int_nonneg|].
      destruct H1 as [? ->]. now apply mod_pred_nonneg. }
    assert (0 <= dmq1)%Z.
    { destruct (truthy (JsonWebKey.dq jwk)); [subst; apply field_int_nonneg|].
      destruct H2 as [? ->]. now apply mod_pred_nonneg. }
    assert (0 <= iqmp)%Z.
    { destruct (truthy (JsonWebKey.qi jwk)); [subst; apply field_int_nonneg|].
      unfold rsa.rsa_crt_iqmp in H3. eapply modinv_nonneg; [|exact H3]. assumption. }
    repeat (apply andb_true_iff; split); now apply Z.leb_le.
  - rewrite from_jwk_checked, Hp in H by assumption.
    apply rbind_ok in H as (impl & H & Hkey). injection Hkey as <-.
    unfold rsa.public_key in H.
    apply rbind_ok in H as ([] & Hl & H). injection H as <-.
    eexists. split; [reflexivity|]. split; [reflexivity|exact Hl].
Qed.

Lemma from_jwk_nonneg jwk key : RsaKey.from_jwk jwk = Ok key -> nonneg_key key = true.
Proof.
  intros H. destruct (from_jwk_ok_shape jwk key H) as (_ & _ & impl & -> & Hs).
  unfold nonneg_key. cbn.
  destruct (has_p_q_d jwk).
  - destruct Hs as (o & -> & _ & Hn & _). exact Hn.
  - destruct Hs as (-> & _). unfold nonneg_public, jwk_public_numbers. cbn.
    pose proof (field_int_nonneg (JsonWebKey.n jwk)).
    pose proof (field_int_nonneg (JsonWebKey.e jwk)).
    apply andb_true_iff; split; now apply Z.leb_le.
Qed.

Lemma from_jwk_public_numbers jwk key : RsaKey.from_jwk jwk = Ok key ->
  key_public_numbers key = jwk_public_numbers jwk.
Proof.
  intros H. destruct (from_jwk_ok_shape jwk key H) as (_ & _ & impl & -> & Hs).
  unfold key_public_numbers. cbn.
  destruct (has_p_q_d jwk).
  - destruct Hs as (o & -> & Hp & _). exact Hp.
  - destruct Hs as (-> & _). reflexivity.
Qed.

End ImportShape.

Lemma n_run_eq k :
  RsaKey.n k = (_int_to_bytes (rsa.n (key_public_numbers k)), k).
Proof. destruct k as [kid kty ops [o|o]]; reflexivity. Qed.

Lemma e_run_eq k :
  RsaKey.e k = (_int_to_bytes (rsa.e (key_public_numbers k)), k).
Proof. destruct k as [kid kty ops [o|o]]; reflexivity. Qed.

Lemma key_public_numbers_nonneg k : nonneg_key k = true ->
  (0 <= rsa.n (key_public_numbers k) /\ 0 <= rsa.e (key_public_numbers k))%Z.
Proof.
  intros H. destruct (public_key_material_run k) as (o & Eo & Ho).
  assert (o = key_public_numbers k) as ->
    by (destruct k as [kid kty ops [o'|o']]; cbn in Eo; now injection Eo as <-).
  specialize (Ho H). unfold nonneg_public in Ho.
  apply andb_true_iff in Ho as [Hn He]. apply Z.leb_le in Hn, He. auto.
Qed.

Lemma truthy_nonempty o : truthy (nonempty o) = truthy o.
Proof. destruct o as [[|x v]|]; reflexivity. Qed.

Lemma field_int_nonempty o : field_int (nonempty o) = field_int o.
Proof. destruct o as [[|x v]|]; reflexivity. Qed.

(** X5.  The accessor [b] never returns bytes: it is [None] on a public-only
    key and raises AttributeError on a private key, whose numbers have no
    attribute b. *)
Theorem b_accessor_never_returns_bytes (k : RsaKey.t) :
  RsaKey.b k =
  (if public_only k then Ok None else Raise (AttributeError "RSAPrivateNumbers" "b"), k).
Proof. destruct k as [kid kty ops [o|o]]; reflexivity. Qed.

(** X6.  On a key with non-negative numbers the accessors [n] and [e] return
    encodings that decode to the modulus and the public exponent, they leave
    the key as it was, and a private key answers them as the public-only key
    over the same public numbers does. *)
Theorem public_accessors (k : RsaKey.t) (Hnum : nonneg_key k = true) :
  exists vn ve,
    RsaKey.n k = (Ok vn, k) /\ RsaKey.e k = (Ok ve, k) /\
    _bytes_to_int vn = Ok (rsa.n (key_public_numbers k)) /\
    _bytes_to_int ve = Ok (rsa.e (key_public_numbers k)) /\
    RsaKey.n (public_counterpart k) = (Ok vn, public_counterpart k) /\
    RsaKey.e (public_counterpart k) = (Ok ve, public_counterpart k).
Proof.
  destruct (key_public_numbers_nonneg k Hnum) as [Hn He].
  destruct (int_to_bytes_roundtrip _ Hn) as (vn & En & Rn).
  destruct (int_to_bytes_roundtrip _ He) as (ve & Ee & Re).
  exists vn, ve. rewrite !n_run_eq, !e_run_eq.
  change (key_public_numbers (public_counterpart k)) with (key_public_numbers k).
  rewrite En, Ee. repeat split; assumption.
Qed.

Lemma public_accessors_witness :
  RsaKey.n Sample.private_key = (Ok [x0c; xa1], Sample.private_key) /\
  RsaKey.n (public_counterpart Sample.private_key)
    = (Ok [x0c; xa1], public_counterpart Sample.private_key).
Proof.
  destruct (public_accessors Sample.private_key eq_refl)
    as (vn & ve & En & _ & _ & _ & En' & _).
  assert (vn = [x0c; xa1]) as -> by (cbv in En; now injection En).
  split; assumption.
Defined.

Section MoreImport.
Context {B : rsa.Backend}.

(** X7.  Every key [from_jwk] returns came from a JWK with an accepted kty
    and with n and e; it carries the JWK's kid, kty and key_ops unchanged; it
    is a private key exactly when p, q and d were all present; its public
    numbers are those in n and e; and none of its numbers is negative. *)
Theorem from_jwk_invariants (jwk : JsonWebKey.t) (key : RsaKey.t)
    (Himport : RsaKey.from_jwk jwk = Ok key) :
  accepted_kty jwk = true /\ has_modulus_and_exponent jwk = true /\
  RsaKey._kid key = JsonWebKey.kid jwk /\ RsaKey.kty key = JsonWebKey.kty jwk /\
  RsaKey.key_ops key = JsonWebKey.key_ops jwk /\
  RsaKey.is_private_key key = (Ok (has_p_q_d jwk), key) /\
  key_public_numbers key = jwk_public_numbers jwk /\
  nonneg_key key = true.
Proof.
  pose proof (from_jwk_nonneg jwk key Himport) as Hn.
  pose proof (from_jwk_public_numbers jwk key Himport) as Hp.
  destruct (from_jwk_ok_shape jwk key Himport) as (Hk & Hne & impl & -> & Hs).
  repeat (split; [assumption || reflexivity|]).
  split; [|split; assumption].
  destruct (has_p_q_d jwk).
  - destruct Hs as (o & -> & _). reflexivity.
  - destruct Hs as (-> & _). reflexivity.
Qed.

(** X8.  The public export of an imported key, private or not, does not
    raise: it returns the JWK's kid and kty, the fixed public operations
    whatever key_ops came in, n and e in canonical form, and no private
    field. *)
Theorem import_then_public_export (jwk : JsonWebKey.t) (key : RsaKey.t)
    (Himport : RsaKey.from_jwk jwk = Ok key) :
  RsaKey.to_jwk false key =
  (Ok (JsonWebKey.make (JsonWebKey.kid jwk) (JsonWebKey.kty jwk)
         (Some RsaKey.PUBLIC_KEY_DEFAULT_OPS)
         (Some (canonical (field_bytes (JsonWebKey.n jwk))))
         (Some (canonical (field_bytes (JsonWebKey.e jwk))))), key).
Proof.
  pose proof (from_jwk_nonneg jwk key Himport) as Hn.
  pose proof (from_jwk_public_numbers jwk key Himport) as Hp.
  destruct (from_jwk_ok_shape jwk key Himport) as (Hk & Hne & impl & Ekey & _).
  destruct (to_jwk_public key Hn) as (vn & ve & En & Ee & Ej).
  rewrite n_run_eq, Hp in En. rewrite e_run_eq, Hp in Ee.
  unfold has_modulus_and_exponent in Hne. apply andb_true_iff in Hne as [Tn Te].
  unfold jwk_public_numbers in En, Ee. cbn [rsa.n rsa.e] in En, Ee.
  rewrite field_int_encoding in En, Ee by assumption.
  injection En as <-. injection Ee as <-.
  rewrite Ej, Ekey. reflexivity.
Qed.

(** X9.  An empty byte string in any of n, e, d, dq, dp, qi, p, q is the same
    to [from_jwk] as a missing field. *)
Theorem from_jwk_empty_is_absent (jwk : JsonWebKey.t) :
  RsaKey.from_jwk (drop_empty_fields jwk) = RsaKey.from_jwk jwk.
Proof.
  assert (Hk : accepted_kty (drop_empty_fields jwk) = accepted_kty jwk) by reflexivity.
  assert (Hne : has_modulus_and_exponent (drop_empty_fields jwk)
                = has_modulus_and_exponent jwk).
  { unfold has_modulus_and_exponent. cbn. now rewrite !truthy_nonempty. }
  destruct (accepted_kty jwk) eqn:Ek.
  2:{ rewrite !from_jwk_bad_kty by assumption. reflexivity. }
  destruct (has_modulus_and_exponent jwk) eqn:Ene.
  2:{ rewrite !from_jwk_no_n_e by assumption. reflexivity. }
  rewrite !from_jwk_checked by assumption.
  unfold has_p_q_d, jwk_public_numbers. cbn [drop_empty_fields JsonWebKey.kid JsonWebKey.kty
    JsonWebKey.key_ops JsonWebKey.n JsonWebKey.e JsonWebKey.d JsonWebKey.dq JsonWebKey.dp
    JsonWebKey.qi JsonWebKey.p JsonWebKey.q].
  rewrite !truthy_nonempty, !field_int_nonempty. reflexivity.
Qed.


(** X11.  The public export of a key with accepted kty imports again, when
    the backend takes its public numbers, as the public-only key over the
    same public numbers with the public operations: no private number of a
    private key goes through. *)
Theorem public_export_reimport (k : RsaKey.t)
    (Hnum : nonneg_key k = true)
    (Hkty : RsaKey.kty_is (RsaKey.kty k) "RSA" || RsaKey.kty_is (RsaKey.kty k) "RSA-HSM" = true)
    (Hload : rsa.load_rsa_public_numbers (key_public_numbers k) = Ok tt) :
  exists jwk,
    RsaKey.to_jwk false k = (Ok jwk, k) /\
    RsaKey.from_jwk jwk = Ok (public_counterpart k) /\
    has_p_q_d jwk = false.
Proof.
  destruct (key_public_numbers_nonneg k Hnum) as [Hn He].
  destruct (int_to_bytes_roundtrip _ Hn) as (vn & En & Rn).
  destruct (int_to_bytes_roundtrip _ He) as (ve & Ee & Re).
  destruct (to_jwk_public k Hnum) as (vn' & ve' & En' & Ee' & Ej).
  rewrite n_run_eq, En in En'. rewrite e_run_eq, Ee in Ee'.
  injection En' as <-. injection Ee' as <-.
  eexists. split; [exact Ej|]. split; [|reflexivity].
  assert (Tn : vn <> []) by (intros ->; discriminate).
  assert (Te : ve <> []) by (intros ->; discriminate).
  rewrite from_jwk_checked.
  - change (has_p_q_d _) with false. cbv iota.
    assert (Ep : jwk_public_numbers
                   (JsonWebKey.make (RsaKey._kid k) (RsaKey.kty k)
                      (Some RsaKey.PUBLIC_KEY_DEFAULT_OPS) (Some vn) (Some ve))
                 = key_public_numbers k).
    { unfold jwk_public_numbers, field_int. cbn [JsonWebKey.make JsonWebKey.n JsonWebKey.e field_bytes].
      rewrite bytes_to_int_value in Rn, Re by assumption.
      injection Rn as ->. injection Re as ->.
      destruct (key_public_numbers k). reflexivity. }
    rewrite Ep. unfold rsa.public_key. rewrite Hload. reflexivity.
  - exact Hkty.
  - unfold has_modulus_and_exponent. cbn.
    destruct vn; [contradiction|]. destruct ve; [contradiction|]. reflexivity.
Qed.

End MoreImport.

Lemma from_jwk_invariants_witness :
  RsaKey.is_private_key Sample.private_key = (Ok true, Sample.private_key) /\
  nonneg_key Sample.private_key = true.
Proof.
  destruct (@from_jwk_invariants rsa.component_checks Sample.jwk_minimal Sample.private_key
              eq_refl) as (_ & _ & _ & _ & _ & Hp & _ & Hn).
  split; [exact Hp | exact Hn].
Defined.

Lemma import_then_public_export_witness :
  RsaKey.to_jwk false Sample.private_key =
  (Ok (JsonWebKey.make (Some "k1"%string) (Some "RSA"%string)
         (Some RsaKey.PUBLIC_KEY_DEFAULT_OPS) (Some [x0c; xa1]) (Some [x11])),
   Sample.private_key).
Proof.
  exact (@import_then_public_export rsa.component_checks Sample.jwk_padded
           Sample.private_key eq_refl).
Defined.


Lemma public_export_reimport_witness :
  exists jwk,
    RsaKey.to_jwk false Sample.private_key = (Ok jwk, Sample.private_key) /\
    @RsaKey.from_jwk rsa.component_checks jwk = Ok (public_counterpart Sample.private_key).
Proof.
  destruct (@public_export_reimport rsa.component_checks Sample.private_key
              eq_refl eq_refl eq_refl) as (jwk & H1 & H2 & _).
  exists jwk. split; assumption.
Defined.

(** ** Tracing *)

Section Tracing.
Variables Span Ctx A : Type.
Variable impl : tracing.SpanImpl Span Ctx.

(** X12.  With a tracing implementation whose current span is what was last
    set, the block under [change_context(span)] starts with [span] current,
    its result or exception comes out unchanged, and afterwards the current
    span is the one from before the block, whether the block returned or
    raised. *)
Theorem change_context_restores (span : Span) (body : tracing.block Ctx A) (ctx : Ctx)
    (Hcell : forall s c,
       tracing.get_current_span impl (tracing.set_current_span impl s c) = s) :
  let run := tracing.change_context (Some impl) (Some span) body ctx in
  let inside := tracing.set_current_span impl (Some span) ctx in
  tracing.get_current_span impl inside = Some span /\
  fst run = fst (body inside) /\
  tracing.get_current_span impl (snd run) = tracing.get_current_span impl ctx.
Proof.
  cbv zeta. unfold tracing.change_context.
  destruct (body (tracing.set_current_span impl (Some span) ctx)) as [r c].
  cbn. rewrite !Hcell. auto.
Qed.

End Tracing.

Lemma change_context_restores_witness :
  let run := tracing.change_context (Some cell_impl) (Some 5%nat)
               (fun _ => (@Raise unit (ValueError "boom"), Some 7%nat)) (Some 1%nat) in
  fst run = Raise (ValueError "boom") /\
  tracing.get_current_span cell_impl (snd run) = Some 1%nat.
Proof.
  destruct (change_context_restores nat (option nat) unit cell_impl 5%nat
              (fun _ => (@Raise unit (ValueError "boom"), Some 7%nat)) (Some 1%nat)
              (fun s c => eq_refl)) as (_ & H1 & H2).
  split; [exact H1 | exact H2].
Defined.
